(** * REACHER remote dashboard: the Hardware tab

    A shallow embedding of [src/reacher/remote/hardware_tab.py]: the
    [HardwareTab] controller with its arm/disarm handlers, the two
    configuration senders, [set_active_lever], [arm_devices] and the
    square-wave preview [plot_square_wave].

    Handlers are written in a state-and-exception monad over the object's
    attributes and the list of HTTP POSTs issued so far; the remote end is
    an arbitrary function from that history and the new request to what
    [requests.post] does with it. The statement [import requests] inside
    each [try] is taken to succeed. *)

From Stdlib Require Import ZArith Bool List String Ascii DecimalString DecimalZ DecimalPos Lia.
From Stdlib Require Import Uint63 PrimFloat SpecFloat FloatOps.
Import ListNotations.

Open Scope string_scope.
Open Scope Z_scope.

Set Warnings "-inexact-float".

(** ** Python values and exceptions *)

Module Py.

(** The exceptions a handler can meet, each with its message. *)
Inductive exn : Type :=
| RequestException (msg : string)   (* raised by [requests.post] itself *)
| HTTPError (msg : string)          (* raised by [raise_for_status] *)
| UnboundLocalError (msg : string)
| AttributeError (msg : string)
| ZeroDivisionError (msg : string)
| IndexError (msg : string).

(** [str(e)] *)
Definition str (e : exn) : string :=
  match e with
  | RequestException msg | HTTPError msg
  | UnboundLocalError msg | AttributeError msg
  | ZeroDivisionError msg | IndexError msg => msg
  end.

Inductive Result (A : Type) : Type :=
| Returned (a : A)
| Raised (e : exn).
Arguments Returned {A} a.
Arguments Raised {A} e.

(** [str(n)] and [f"{n}"] for an [int]. *)
Definition str_int (n : Z) : string := NilZero.string_of_int (Z.to_int n).

(** [str.upper] on ASCII text. *)
Definition upper_ascii (c : ascii) : ascii :=
  let n := nat_of_ascii c in
  if (97 <=? n)%nat && (n <=? 122)%nat then ascii_of_nat (n - 32) else c.

Fixpoint upper (s : string) : string :=
  match s with
  | EmptyString => EmptyString
  | String c s' => String (upper_ascii c) (upper s')
  end.

(** The argument a widget callback receives: [None], a menu click whose
    [new] is the chosen item, or a watched parameter change whose [new]
    is the toggle's value. *)
Inductive Event : Type :=
| PyNone
| Clicked (new : string)
| Changed (new : bool).

End Py.
Import Py.

(** ** The [requests] client, as far as the handlers use it *)

Module Requests.

(** One call [requests.post(timeout=.., url=.., json={'command': ..})]. *)
Record Request : Type := mkRequest {
  timeout : Z;
  url : string;
  command : string
}.

Record Response : Type := mkResponse {
  status_code : Z;
  reason : string;
  response_url : string
}.

(** What a call of [requests.post] does: it raises (connection refused,
    timeout, ...) or returns a response with a status. *)
Inductive Outcome : Type :=
| Raises (msg : string)
| Responds (status : Z) (why : string).

(** The far end and the network between, as the client sees them: the
    outcome of a POST given the POSTs issued before it. *)
Definition Server : Type := list Request -> Request -> Outcome.

(** [Response.raise_for_status]: an [HTTPError] for a 4xx or a 5xx
    status, nothing for any other. *)
Definition http_error_msg (r : Response) : option string :=
  if (400 <=? status_code r) && (status_code r <? 500) then
    Some (str_int (status_code r) ++ " Client Error: " ++ reason r
            ++ " for url: " ++ response_url r)
  else if (500 <=? status_code r) && (status_code r <? 600) then
    Some (str_int (status_code r) ++ " Server Error: " ++ reason r
            ++ " for url: " ++ response_url r)
  else None.

End Requests.
Import Requests.

(** ** The state of the tab *)

Module Dashboard.

Record ApiConfig : Type := mkApiConfig { host : string; port : string }.

(** Modelled from the spec: the base class [Dashboard] is not part of the
    sources at hand. Its [add_response(message)] and
    [add_error(label, detail)] write to the response/error log it owns;
    an entry of that log is one such call. *)
Inductive LogEntry : Type :=
| Response_entry (message : string)
| Error_entry (label detail : string).

End Dashboard.
Import Dashboard.

(** The seven [*_armed] attributes. *)
Inductive Flag : Type :=
| rh_lever_armed | lh_lever_armed | cue_armed | pump_armed
| lick_circuit_armed | microscope_armed | laser_armed.

(** The seven [pn.widgets.Toggle] attributes. *)
Inductive Button : Type :=
| arm_rh_lever_button | arm_lh_lever_button | arm_cue_button
| arm_pump_button | arm_lick_circuit_button | arm_microscope_button
| arm_laser_button.

Definition Flag_eqb (a b : Flag) : bool :=
  match a, b with
  | rh_lever_armed, rh_lever_armed | lh_lever_armed, lh_lever_armed
  | cue_armed, cue_armed | pump_armed, pump_armed
  | lick_circuit_armed, lick_circuit_armed
  | microscope_armed, microscope_armed | laser_armed, laser_armed => true
  | _, _ => false
  end.

Definition Button_eqb (a b : Button) : bool :=
  match a, b with
  | arm_rh_lever_button, arm_rh_lever_button
  | arm_lh_lever_button, arm_lh_lever_button
  | arm_cue_button, arm_cue_button | arm_pump_button, arm_pump_button
  | arm_lick_circuit_button, arm_lick_circuit_button
  | arm_microscope_button, arm_microscope_button
  | arm_laser_button, arm_laser_button => true
  | _, _ => false
  end.

Record Toggle : Type := mkToggle {
  name : string;
  icon : string;
  value : bool;
  button_type : string
}.

(** The attributes of a [HardwareTab] object that its handlers read or
    write: three inherited from [Dashboard], the rest set up by
    [__init__]. *)
Record HardwareTab : Type := mkHardwareTab {
  api_connected : bool;
  api_config : ApiConfig;
  log : list LogEntry;
  armed : Flag -> bool;
  toggle : Button -> Toggle;
  cue_frequency_intslider : Z;
  cue_duration_intslider : Z;
  stim_mode_widget : string;
  stim_frequency_slider : Z;
  stim_duration_slider : Z
}.

(** [self.<flag> = v] *)
Definition set_armed (f : Flag) (v : bool) (self : HardwareTab) : HardwareTab :=
  {| api_connected := api_connected self;
     api_config := api_config self;
     log := log self;
     armed := fun g => if Flag_eqb g f then v else armed self g;
     toggle := toggle self;
     cue_frequency_intslider := cue_frequency_intslider self;
     cue_duration_intslider := cue_duration_intslider self;
     stim_mode_widget := stim_mode_widget self;
     stim_frequency_slider := stim_frequency_slider self;
     stim_duration_slider := stim_duration_slider self |}.

Definition with_icon (i : string) (t : Toggle) : Toggle :=
  {| name := name t; icon := i; value := value t;
     button_type := button_type t |}.

(** [self.<button>.icon = i] *)
Definition set_icon (b : Button) (i : string) (self : HardwareTab) : HardwareTab :=
  {| api_connected := api_connected self;
     api_config := api_config self;
     log := log self;
     armed := armed self;
     toggle := fun c => if Button_eqb c b then with_icon i (toggle self c)
                        else toggle self c;
     cue_frequency_intslider := cue_frequency_intslider self;
     cue_duration_intslider := cue_duration_intslider self;
     stim_mode_widget := stim_mode_widget self;
     stim_frequency_slider := stim_frequency_slider self;
     stim_duration_slider := stim_duration_slider self |}.

(** One more entry at the end of the log. *)
Definition logged (e : LogEntry) (self : HardwareTab) : HardwareTab :=
  {| api_connected := api_connected self;
     api_config := api_config self;
     log := log self ++ [e];
     armed := armed self;
     toggle := toggle self;
     cue_frequency_intslider := cue_frequency_intslider self;
     cue_duration_intslider := cue_duration_intslider self;
     stim_mode_widget := stim_mode_widget self;
     stim_frequency_slider := stim_frequency_slider self;
     stim_duration_slider := stim_duration_slider self |}.

(** The object together with the POSTs issued so far, oldest first. A
    POST is listed as soon as [requests.post] is called, whatever comes of
    it. *)
Record State : Type := mkState {
  self : HardwareTab;
  posted : list Request
}.

(** ** The monad of handlers *)

Definition M (A : Type) : Type := Server -> State -> Result A * State.

Definition ret {A} (a : A) : M A := fun _ st => (Returned a, st).

Definition bind {A B} (m : M A) (k : A -> M B) : M B :=
  fun srv st =>
    match m srv st with
    | (Returned a, st') => k a srv st'
    | (Raised e, st') => (Raised e, st')
    end.

Definition raise {A} (e : exn) : M A := fun _ st => (Raised e, st).

(** [try: body  except Exception as e: handler(e)] *)
Definition try_except {A} (body : M A) (handler : exn -> M A) : M A :=
  fun srv st =>
    match body srv st with
    | (Returned a, st') => (Returned a, st')
    | (Raised e, st') => handler e srv st'
    end.

Definition get_self : M HardwareTab := fun _ st => (Returned (self st), st).

Definition modify_self (f : HardwareTab -> HardwareTab) : M unit :=
  fun _ st => (Returned tt, {| self := f (self st); posted := posted st |}).

Declare Scope handler_scope.
Delimit Scope handler_scope with handler.
Notation "x <- m ;; k" := (bind m (fun x => k))
  (at level 100, m at next level, right associativity) : handler_scope.
Notation "m ;; k" := (bind m (fun _ => k))
  (at level 100, right associativity) : handler_scope.
Notation "'try' body 'except' e => h" := (try_except body (fun e => h))
  (at level 100, body at level 100, e name, h at level 100) : handler_scope.
Open Scope handler_scope.

(** Result and final state of a handler run against a server. *)
Definition run {A} (m : M A) (srv : Server) (st : State) : Result A * State :=
  m srv st.
Definition exec {A} (m : M A) (srv : Server) (st : State) : State :=
  snd (m srv st).

(** *** What the handlers call *)

(** Modelled from the spec: [Dashboard.add_response(message)]. *)
Definition add_response (message : string) : M unit :=
  modify_self (logged (Response_entry message)).

(** Modelled from the spec: [Dashboard.add_error(label, detail)]. *)
Definition add_error (label detail : string) : M unit :=
  modify_self (logged (Error_entry label detail)).

(** Modelled from the spec: [Dashboard.get_api_config() -> {host, port}]. *)
Definition get_api_config : M ApiConfig :=
  self <- get_self ;; ret (api_config self).

(** [f"http://{api_config['host']}:{api_config['port']}/serial/command"] *)
Definition serial_command_url (c : ApiConfig) : string :=
  "http://" ++ host c ++ ":" ++ port c ++ "/serial/command".

(** [requests.post(timeout=t, url=u, json={'command': data})] *)
Definition requests_post (t : Z) (u : string) (data : string) : M Response :=
  fun srv st =>
    let req := {| timeout := t; url := u; command := data |} in
    let st' := {| self := self st; posted := posted st ++ [req] |} in
    match srv (posted st) req with
    | Raises msg => (Raised (RequestException msg), st')
    | Responds code why =>
        (Returned {| status_code := code; reason := why; response_url := u |}, st')
    end.

(** [response.raise_for_status()] *)
Definition raise_for_status (r : Response) : M unit :=
  match http_error_msg r with
  | Some msg => raise (HTTPError msg)
  | None => ret tt
  end.

(** ** The handlers of [HardwareTab] *)

(** [event.new]; on [None] the attribute access raises. *)
Definition event_new_is (event : Event) (item : string) : M bool :=
  match event with
  | PyNone => raise (AttributeError "'NoneType' object has no attribute 'new'")
  | Clicked new => ret (String.eqb new item)
  | Changed _ => ret false
  end.

(** A local variable that a branch may have left unassigned. *)
Definition local (var : string) (v : option string) : M string :=
  match v with
  | Some x => ret x
  | None =>
      raise (UnboundLocalError
               ("cannot access local variable '" ++ var
                  ++ "' where it is not associated with a value"))
  end.

Definition set_active_lever (event : Event) : M unit :=
  self <- get_self ;;
  if negb (api_connected self) then
    add_response "Please connect to the API first."
  else
    api_config <- get_api_config ;;
    is_lh <- event_new_is event "LH Lever" ;;
    data <- (if is_lh : bool then ret (Some "ACTIVE_LEVER_LH")
             else
               is_rh <- event_new_is event "RH Lever" ;;
               if is_rh : bool then ret (Some "ACTIVE_LEVER_RH")
               else ret None) ;;
    try (
      let u := serial_command_url api_config in
      data <- local "data" data ;;
      response <- requests_post 5 u data ;;
      raise_for_status response
    ) except e =>
      add_error "Failed to set active lever" (str e).

Definition arm_rh_lever (_ : Event) : M unit :=
  self <- get_self ;;
  if negb (api_connected self) then
    add_response "Please connect to the API first."
  else
    api_config <- get_api_config ;;
    try (
      self <- get_self ;;
      data <- (if negb (armed self rh_lever_armed) then
                 modify_self (set_armed rh_lever_armed true) ;;
                 modify_self (set_icon arm_rh_lever_button "unlock") ;;
                 ret "ARM_LEVER_RH"
               else
                 modify_self (set_armed rh_lever_armed false) ;;
                 modify_self (set_icon arm_rh_lever_button "lock") ;;
                 ret "DISARM_LEVER_RH") ;;
      response <- requests_post 5 (serial_command_url api_config) data ;;
      raise_for_status response
    ) except e =>
      add_error "Failed to arm or disarm RH lever" (str e).

Definition arm_lh_lever (_ : Event) : M unit :=
  self <- get_self ;;
  if negb (api_connected self) then
    add_response "Please connect to the API first."
  else
    api_config <- get_api_config ;;
    try (
      self <- get_self ;;
      data <- (if negb (armed self lh_lever_armed) then
                 modify_self (set_armed lh_lever_armed true) ;;
                 modify_self (set_icon arm_lh_lever_button "unlock") ;;
                 ret "ARM_LEVER_LH"
               else
                 modify_self (set_armed lh_lever_armed false) ;;
                 modify_self (set_icon arm_lh_lever_button "lock") ;;
                 ret "DISARM_LEVER_LH") ;;
      response <- requests_post 5 (serial_command_url api_config) data ;;
      raise_for_status response
    ) except e =>
      add_error "Failed to arm or disarm LH lever" (str e).

Definition arm_cs (_ : Event) : M unit :=
  self <- get_self ;;
  if negb (api_connected self) then
    add_response "Please connect to the API first."
  else
    api_config <- get_api_config ;;
    try (
      self <- get_self ;;
      data <- (if negb (armed self cue_armed) then
                 modify_self (set_armed cue_armed true) ;;
                 modify_self (set_icon arm_cue_button "unlock") ;;
                 ret "ARM_CS"
               else
                 modify_self (set_armed cue_armed false) ;;
                 modify_self (set_icon arm_cue_button "lock") ;;
                 ret "DISARM_CS") ;;
      response <- requests_post 5 (serial_command_url api_config) data ;;
      raise_for_status response
    ) except e =>
      add_error "Failed to arm or disarm CS" (str e).

Definition send_cue_configuration (_ : Event) : M unit :=
  self <- get_self ;;
  if negb (api_connected self) then
    add_response "Please connect to the API first."
  else
    api_config <- get_api_config ;;
    try (
      self <- get_self ;;
      let data := "SET_FREQUENCY_CS:" ++ str_int (cue_frequency_intslider self) in
      response <- requests_post 5 (serial_command_url api_config) data ;;
      raise_for_status response ;;
      self <- get_self ;;
      let data := "SET_DURATION_CS:" ++ str_int (cue_duration_intslider self) in
      response <- requests_post 5 (serial_command_url api_config) data ;;
      raise_for_status response
    ) except e =>
      add_error "Failed to send CS configuration" (str e).

Definition arm_pump (_ : Event) : M unit :=
  self <- get_self ;;
  if negb (api_connected self) then
    add_response "Please connect to the API first."
  else
    api_config <- get_api_config ;;
    try (
      self <- get_self ;;
      data <- (if negb (armed self pump_armed) then
                 modify_self (set_armed pump_armed true) ;;
                 modify_self (set_icon arm_pump_button "unlock") ;;
                 ret "ARM_PUMP"
               else
                 modify_self (set_armed pump_armed false) ;;
                 modify_self (set_icon arm_pump_button "lock") ;;
                 ret "DISARM_PUMP") ;;
      response <- requests_post 5 (serial_command_url api_config) data ;;
      raise_for_status response
    ) except e =>
      add_error "Failed to arm or disarm pump" (str e).

Definition arm_lick_circuit (_ : Event) : M unit :=
  self <- get_self ;;
  if negb (api_connected self) then
    add_response "Please connect to the API first."
  else
    api_config <- get_api_config ;;
    try (
      self <- get_self ;;
      data <- (if negb (armed self lick_circuit_armed) then
                 modify_self (set_armed lick_circuit_armed true) ;;
                 modify_self (set_icon arm_lick_circuit_button "unlock") ;;
                 ret "ARM_LICK_CIRCUIT"
               else
                 modify_self (set_armed lick_circuit_armed false) ;;
                 modify_self (set_icon arm_lick_circuit_button "lock") ;;
                 ret "DISARM_LICK_CIRCUIT") ;;
      response <- requests_post 5 (serial_command_url api_config) data ;;
      raise_for_status response
    ) except e =>
      add_error "Failed to arm or disarm lick circuit" (str e).

Definition arm_frames (_ : Event) : M unit :=
  self <- get_self ;;
  if negb (api_connected self) then
    add_response "Please connect to the API first."
  else
    api_config <- get_api_config ;;
    try (
      self <- get_self ;;
      data <- (if negb (armed self microscope_armed) then
                 modify_self (set_armed microscope_armed true) ;;
                 modify_self (set_icon arm_microscope_button "unlock") ;;
                 ret "ARM_FRAME"
               else
                 modify_self (set_armed microscope_armed false) ;;
                 modify_self (set_icon arm_microscope_button "lock") ;;
                 ret "DISARM_FRAME") ;;
      response <- requests_post 5 (serial_command_url api_config) data ;;
      raise_for_status response
    ) except e =>
      add_error "Failed to arm or disarm 2P" (str e).

Definition arm_laser (_ : Event) : M unit :=
  self <- get_self ;;
  if negb (api_connected self) then
    add_response "Please connect to the API first."
  else
    api_config <- get_api_config ;;
    try (
      self <- get_self ;;
      data <- (if negb (armed self laser_armed) then
                 modify_self (set_armed laser_armed true) ;;
                 modify_self (set_icon arm_laser_button "unlock") ;;
                 ret "ARM_LASER"
               else
                 modify_self (set_armed laser_armed false) ;;
                 modify_self (set_icon arm_laser_button "lock") ;;
                 ret "DISARM_LASER") ;;
      response <- requests_post 5 (serial_command_url api_config) data ;;
      raise_for_status response
    ) except e =>
      add_error "Failed to arm or disarm laser" (str e).

Definition send_laser_configuration (_ : Event) : M unit :=
  self <- get_self ;;
  if negb (api_connected self) then
    add_response "Please connect to the API first."
  else
    api_config <- get_api_config ;;
    try (
      self <- get_self ;;
      let data := "LASER_STIM_MODE_" ++ upper (stim_mode_widget self) in
      response <- requests_post 5 (serial_command_url api_config) data ;;
      raise_for_status response ;;
      self <- get_self ;;
      let data := "LASER_DURATION:" ++ str_int (stim_duration_slider self) in
      response <- requests_post 5 (serial_command_url api_config) data ;;
      raise_for_status response ;;
      self <- get_self ;;
      let data := "LASER_FREQUENCY:" ++ str_int (stim_frequency_slider self) in
      response <- requests_post 5 (serial_command_url api_config) data ;;
      raise_for_status response
    ) except e =>
      add_error "Failed to send laser configuration" (str e).

(** [self.hardware_components], in the order [__init__] writes it. *)
Definition hardware_components : list (string * (Event -> M unit)) :=
  [ ("LH Lever", arm_lh_lever);
    ("RH Lever", arm_rh_lever);
    ("Cue", arm_cs);
    ("Pump", arm_pump);
    ("Lick Circuit", arm_lick_circuit);
    ("Laser", arm_laser);
    ("Imaging Timestamp Receptor", arm_frames) ].

(** [dict.get(key)] *)
Fixpoint dict_get {V} (d : list (string * V)) (key : string) : option V :=
  match d with
  | [] => None
  | (k, v) :: d' => if String.eqb k key then Some v else dict_get d' key
  end.

(** [for x in xs: body(x)] *)
Fixpoint for_each {A} (xs : list A) (body : A -> M unit) : M unit :=
  match xs with
  | [] => ret tt
  | x :: xs' => body x ;; for_each xs' body
  end.

Definition arm_devices (devices : list string) : M unit :=
  for_each devices (fun device =>
    match dict_get hardware_components device with
    | Some arm_device => arm_device PyNone
    | None => ret tt
    end).

(** [HardwareTab.__init__], given what [Dashboard.__init__] has set up. *)
Definition danger_toggle (label : string) : Toggle :=
  {| name := label; icon := "lock"; value := false; button_type := "danger" |}.

Definition init (connected : bool) (config : ApiConfig)
    (entries : list LogEntry) : HardwareTab :=
  {| api_connected := connected;
     api_config := config;
     log := entries;
     armed := fun _ => false;
     toggle := fun b =>
       match b with
       | arm_rh_lever_button => danger_toggle "Arm RH Lever"
       | arm_lh_lever_button => danger_toggle "Arm LH Lever"
       | arm_cue_button => danger_toggle "Arm Cue"
       | arm_pump_button => danger_toggle "Arm Pump"
       | arm_lick_circuit_button => danger_toggle "Arm Lick Circuit"
       | arm_microscope_button => danger_toggle "Arm Scope"
       | arm_laser_button => danger_toggle "Arm Laser"
       end;
     cue_frequency_intslider := 8000;
     cue_duration_intslider := 1600;
     stim_mode_widget := "Cycle";
     stim_frequency_slider := 20;
     stim_duration_slider := 30 |}.

(** ** The devices, for statements that range over them *)

Inductive Device : Type :=
| LH_Lever | RH_Lever | Cue | Pump | Lick_Circuit | Microscope | Laser.

Definition flag_of (d : Device) : Flag :=
  match d with
  | LH_Lever => lh_lever_armed | RH_Lever => rh_lever_armed
  | Cue => cue_armed | Pump => pump_armed
  | Lick_Circuit => lick_circuit_armed
  | Microscope => microscope_armed | Laser => laser_armed
  end.

Definition button_of (d : Device) : Button :=
  match d with
  | LH_Lever => arm_lh_lever_button | RH_Lever => arm_rh_lever_button
  | Cue => arm_cue_button | Pump => arm_pump_button
  | Lick_Circuit => arm_lick_circuit_button
  | Microscope => arm_microscope_button | Laser => arm_laser_button
  end.

Definition arm_handler (d : Device) : Event -> M unit :=
  match d with
  | LH_Lever => arm_lh_lever | RH_Lever => arm_rh_lever
  | Cue => arm_cs | Pump => arm_pump
  | Lick_Circuit => arm_lick_circuit
  | Microscope => arm_frames | Laser => arm_laser
  end.

Definition ARM (d : Device) : string :=
  match d with
  | LH_Lever => "ARM_LEVER_LH" | RH_Lever => "ARM_LEVER_RH"
  | Cue => "ARM_CS" | Pump => "ARM_PUMP"
  | Lick_Circuit => "ARM_LICK_CIRCUIT"
  | Microscope => "ARM_FRAME" | Laser => "ARM_LASER"
  end.

Definition DISARM (d : Device) : string :=
  match d with
  | LH_Lever => "DISARM_LEVER_LH" | RH_Lever => "DISARM_LEVER_RH"
  | Cue => "DISARM_CS" | Pump => "DISARM_PUMP"
  | Lick_Circuit => "DISARM_LICK_CIRCUIT"
  | Microscope => "DISARM_FRAME" | Laser => "DISARM_LASER"
  end.

Definition error_label (d : Device) : string :=
  match d with
  | LH_Lever => "Failed to arm or disarm LH lever"
  | RH_Lever => "Failed to arm or disarm RH lever"
  | Cue => "Failed to arm or disarm CS"
  | Pump => "Failed to arm or disarm pump"
  | Lick_Circuit => "Failed to arm or disarm lick circuit"
  | Microscope => "Failed to arm or disarm 2P"
  | Laser => "Failed to arm or disarm laser"
  end.

(** The key of the device in [hardware_components]. *)
Definition component_name (d : Device) : string :=
  match d with
  | LH_Lever => "LH Lever" | RH_Lever => "RH Lever"
  | Cue => "Cue" | Pump => "Pump"
  | Lick_Circuit => "Lick Circuit"
  | Microscope => "Imaging Timestamp Receptor" | Laser => "Laser"
  end.

(** The ten callbacks bound to widgets, and what can be called on the tab. *)
Inductive Handler : Type :=
| Set_active_lever
| Arm (d : Device)
| Send_cue_configuration
| Send_laser_configuration.

Definition invoke (h : Handler) : Event -> M unit :=
  match h with
  | Set_active_lever => set_active_lever
  | Arm d => arm_handler d
  | Send_cue_configuration => send_cue_configuration
  | Send_laser_configuration => send_laser_configuration
  end.

Inductive Call : Type :=
| Callback (h : Handler) (event : Event)
| Arm_devices (devices : list string).

Definition call (c : Call) : M unit :=
  match c with
  | Callback h event => invoke h event
  | Arm_devices devices => arm_devices devices
  end.

(** The states the tab can be in: [__init__], then any calls, each against
    any server; between calls the operator and the base class may change
    anything but the armed flags and the buttons' icons. *)
Inductive reachable : State -> Prop :=
| reach_init connected config entries :
    reachable {| self := init connected config entries; posted := [] |}
| reach_call st c srv :
    reachable st -> reachable (exec (call c) srv st)
| reach_other st self' :
    reachable st ->
    (forall f, armed self' f = armed (self st) f) ->
    (forall b, icon (toggle self' b) = icon (toggle (self st) b)) ->
    reachable {| self := self'; posted := posted st |}.

(** Flag and icon of a device say the same. *)
Definition icon_agrees (s : HardwareTab) (d : Device) : Prop :=
  icon (toggle s (button_of d))
  = if armed s (flag_of d) then "unlock" else "lock".

(** The request every handler builds for a command. *)
Definition command_post (s : HardwareTab) (data : string) : Request :=
  {| timeout := 5; url := serial_command_url (api_config s); command := data |}.

(** The error text of a POST outcome, when [requests.post] followed by
    [raise_for_status] raises on it. *)
Definition failure (u : string) (o : Outcome) : option string :=
  match o with
  | Raises msg => Some msg
  | Responds code why =>
      http_error_msg {| status_code := code; reason := why; response_url := u |}
  end.

(** A device's flag and icon after its handler has flipped them. *)
Definition toggled (d : Device) (s : HardwareTab) : HardwareTab :=
  if armed s (flag_of d)
  then set_icon (button_of d) "lock" (set_armed (flag_of d) false s)
  else set_icon (button_of d) "unlock" (set_armed (flag_of d) true s).

Definition toggle_command (d : Device) (s : HardwareTab) : string :=
  if armed s (flag_of d) then DISARM d else ARM d.

(** ** The square-wave preview *)

(** *** Floats and arrays, as Python and NumPy compute with them

    A Python [float] and a NumPy [float64] are IEEE binary64 numbers, here
    the primitive [float]; sums, products, quotients and comparisons are
    the primitive ones. *)

Module Np.

(** [float(n)] for an [int] below [2^63] in size (exact below [2^53]). *)
Definition float_of_int (n : Z) : float :=
  match n with
  | Z0 => 0%float
  | Zpos _ => of_uint63 (Uint63.of_Z n)
  | Zneg p => (- of_uint63 (Uint63.of_Z (Zpos p)))%float
  end.

(** An [int] as a sign and a magnitude with exponent [0]. *)
Definition int_as_float (n : Z) : spec_float :=
  match n with
  | Z0 => S754_zero false
  | Zpos p => S754_finite false p 0
  | Zneg p => S754_finite true p 0
  end.

(** [a / b] on two [int]s: the quotient of the two integers, rounded once
    to the nearest float. *)
Definition true_divide (a b : Z) : Result float :=
  if b =? 0 then Raised (ZeroDivisionError "division by zero")
  else Returned (SF2Prim (SFdiv prec emax (int_as_float a) (int_as_float b))).

(** C's [fmod]: the remainder of the truncated quotient, which is always a
    float; it carries the sign of [a]. *)
Definition fmod (a b : float) : float :=
  match Prim2SF a, Prim2SF b with
  | S754_nan, _ | _, S754_nan => nan
  | S754_infinity _, _ => nan
  | _, S754_zero _ => nan
  | S754_zero _, _ => a
  | S754_finite _ _ _, S754_infinity _ => a
  | S754_finite sa ma ea, S754_finite _ mb eb =>
      let e := Z.min ea eb in
      let x := Zpos ma * 2 ^ (ea - e) in
      let y := Zpos mb * 2 ^ (eb - e) in
      match x mod y with
      | Zpos r => SF2Prim (S754_finite sa r e)
      | _ => if sa then neg_zero else zero
      end
  end.

(** [a % b] on a [float64]: [fmod], moved to the sign of [b]. *)
Definition remainder (a b : float) : float :=
  let m := fmod a b in
  if is_zero b then m
  else if is_zero m then (if get_sign b then neg_zero else zero)
  else if xorb (b <? 0)%float (m <? 0)%float then (m + b)%float
  else m.

(** [np.arange(0, num)] as floats. *)
Definition arange (num : nat) : list float :=
  map (fun i => float_of_int (Z.of_nat i)) (seq 0 num).

(** [a[-1] = v] *)
Definition set_last (a : list float) (v : float) : list float :=
  match a with
  | [] => []
  | _ :: _ => (removelast a ++ [v])%list
  end.

(** [np.linspace(start, stop, num)], with the end point (the default). *)
Definition linspace (start stop : float) (num : nat) : list float :=
  let div := (num - 1)%nat in
  let delta := (stop - start)%float in
  let y := arange num in
  let y :=
    if (0 <? div)%nat then
      let step := (delta / float_of_int (Z.of_nat div))%float in
      if (step =? 0)%float then
        map (fun v => (v / float_of_int (Z.of_nat div) * delta)%float) y
      else map (fun v => (v * step)%float) y
    else map (fun v => (v * delta)%float) y in
  let y := map (fun v => (v + start)%float) y in
  if (1 <? num)%nat then set_last y stop else y.

(** [np.zeros_like(a)] *)
Definition zeros_like (a : list float) : list float :=
  map (fun _ => 0%float) a.

Fixpoint imap_from {A} (k : nat) (f : nat -> A -> A) (a : list A) : list A :=
  match a with
  | [] => []
  | x :: a' => f k x :: imap_from (S k) f a'
  end.

(** [a[lo:hi] = v]: every index from [lo] up to but not [hi], as far as
    the array goes. *)
Definition set_slice {A} (a : list A) (lo hi : nat) (v : A) : list A :=
  imap_from 0 (fun j x => if (lo <=? j)%nat && (j <? hi)%nat then v else x) a.

(** [a[i] = v], an [IndexError] past the end. *)
Fixpoint setitem {A} (a : list A) (i : nat) (v : A) : Result (list A) :=
  match a, i with
  | [], _ => Raised (IndexError "index out of bounds")
  | _ :: a', O => Returned (v :: a')
  | x :: a', S i' =>
      match setitem a' i' v with
      | Returned b => Returned (x :: b)
      | Raised e => Raised e
      end
  end.

(** [enumerate(a)], counting from [k]. *)
Definition enumerate_from {A} (k : nat) (a : list A) : list (nat * A) :=
  combine (seq k (List.length a)) a.

End Np.

(** What [plt.gcf()] holds once [plot_square_wave] has drawn on it. *)
Record Figure : Type := mkFigure {
  figsize : Z * Z;
  xdata : list float;
  ydata : list float;
  drawstyle : string;
  title : string;
  xlabel : string;
  ylabel : string;
  ylim : float * float;
  grid : bool
}.

(** The body of [for i, time_point in enumerate(t)]. *)
Fixpoint square_wave_loop (pairs : list (nat * float)) (period : float)
    (square_wave : list float) : Result (list float) :=
  match pairs with
  | [] => Returned square_wave
  | (i, time_point) :: rest =>
      if (Np.remainder time_point period <? period / 2)%float then
        match Np.setitem square_wave i 1%float with
        | Returned square_wave' => square_wave_loop rest period square_wave'
        | Raised e => Raised e
        end
      else square_wave_loop rest period square_wave
  end.

Definition plot_square_wave (frequency : Z) : Result Figure :=
  let total_duration := 1%float in
  let t := Np.linspace 0 total_duration 1000 in
  let square_wave := Np.zeros_like t in
  let filled :=
    if frequency =? 1 then Returned (Np.set_slice square_wave 1 999 1%float)
    else
      match Np.true_divide 1 frequency with
      | Raised e => Raised e
      | Returned period =>
          square_wave_loop (Np.enumerate_from 0 t) period square_wave
      end in
  match filled with
  | Raised e => Raised e
  | Returned square_wave =>
      Returned
        {| figsize := (5, 2);
           xdata := t;
           ydata := square_wave;
           drawstyle := "steps-pre";
           title := "Square Wave - " ++ str_int frequency ++ " Hz";
           xlabel := "Time [s]";
           ylabel := "Amplitude";
           ylim := ((-0.1)%float, 1.1%float);
           grid := true |}
  end.

(** ** Vocabulary of the statements *)

Definition please_connect : LogEntry :=
  Response_entry "Please connect to the API first.".

(** The state a single-POST handler leaves: the POST is listed, and an
    error entry with the handler's label is logged when it failed. *)
Definition after_post (label : string) (s : HardwareTab) (req : Request)
    (srv : Server) (st : State) : State :=
  {| self := match failure (url req) (srv (posted st) req) with
             | Some msg => logged (Error_entry label msg) s
             | None => s
             end;
     posted := posted st ++ [req] |}.

(** Several more entries at the end of the log. *)
Definition logged_all (es : list LogEntry) (s : HardwareTab) : HardwareTab :=
  {| api_connected := api_connected s;
     api_config := api_config s;
     log := log s ++ es;
     armed := armed s;
     toggle := toggle s;
     cue_frequency_intslider := cue_frequency_intslider s;
     cue_duration_intslider := cue_duration_intslider s;
     stim_mode_widget := stim_mode_widget s;
     stim_frequency_slider := stim_frequency_slider s;
     stim_duration_slider := stim_duration_slider s |}.

(** Whether a name is a key of [hardware_components]. *)
Definition is_component (device : string) : bool :=
  match dict_get hardware_components device with
  | Some _ => true
  | None => false
  end.

(** The label a handler passes to [add_error]. *)
Definition handler_label (h : Handler) : string :=
  match h with
  | Set_active_lever => "Failed to set active lever"
  | Arm d => error_label d
  | Send_cue_configuration => "Failed to send CS configuration"
  | Send_laser_configuration => "Failed to send laser configuration"
  end.

(** The events on which a handler gets as far as a POST when connected:
    any for most, a choice of one of the two menu items for
    [set_active_lever]. *)
Definition reaches_post (h : Handler) (event : Event) : Prop :=
  match h with
  | Set_active_lever => event = Clicked "LH Lever" \/ event = Clicked "RH Lever"
  | _ => True
  end.

(** A POST outcome that the handlers take for a failure: an exception of
    [requests.post], or a status from 400 to 599. *)
Definition failed (o : Outcome) : Prop :=
  match o with
  | Raises _ => True
  | Responds code _ => 400 <= code < 600
  end.

(** The commands of the two configuration senders. *)
Definition cue_commands (s : HardwareTab) : list string :=
  [ "SET_FREQUENCY_CS:" ++ str_int (cue_frequency_intslider s);
    "SET_DURATION_CS:" ++ str_int (cue_duration_intslider s) ].

Definition laser_commands (s : HardwareTab) : list string :=
  [ "LASER_STIM_MODE_" ++ upper (stim_mode_widget s);
    "LASER_DURATION:" ++ str_int (stim_duration_slider s);
    "LASER_FREQUENCY:" ++ str_int (stim_frequency_slider s) ].

(** Posting commands one after the other up to the first failure, which is
    logged under [label]. *)
Fixpoint send_all (label : string) (cmds : list string) (srv : Server)
    (st : State) : State :=
  match cmds with
  | [] => st
  | data :: rest =>
      let req := command_post (self st) data in
      let st' := {| self := self st; posted := posted st ++ [req] |} in
      match failure (url req) (srv (posted st) req) with
      | Some msg =>
          {| self := logged (Error_entry label msg) (self st);
             posted := posted st ++ [req] |}
      | None => send_all label rest srv st'
      end
  end.

(** A sample, as the figure shows it. *)
Definition high : float := 1%float.
Definition low : float := 0%float.

(** The test of the general case on one time point. *)
Definition in_first_half (period time_point : float) : bool :=
  (Np.remainder time_point period <? period / 2)%float.

(** Concrete inputs for the examples below. *)
Definition localhost : ApiConfig := {| host := "127.0.0.1"; port := "8000" |}.
Definition fresh (connected : bool) : State :=
  {| self := init connected localhost []; posted := [] |}.
Definition answering (code : Z) (why : string) : Server :=
  fun _ _ => Responds code why.
Definition unreachable_server : Server :=
  fun _ _ => Raises "Connection refused".

(** The tab after the pump has been armed once, the server accepting. *)
Definition pump_armed_state : State :=
  exec (arm_pump (Changed true)) (answering 200 "OK") (fresh true).

(** The commands a handler posts when nothing fails, in order. *)
Definition commands (h : Handler) (event : Event) (s : HardwareTab) : list string :=
  match h with
  | Set_active_lever =>
      match event with
      | Clicked item =>
          if String.eqb item "LH Lever" then ["ACTIVE_LEVER_LH"]
          else if String.eqb item "RH Lever" then ["ACTIVE_LEVER_RH"]
          else []
      | _ => []
      end
  | Arm d => [toggle_command d s]
  | Send_cue_configuration => cue_commands s
  | Send_laser_configuration => laser_commands s
  end.

(** The local updates a handler makes before its first POST. *)
Definition prepared (h : Handler) (s : HardwareTab) : HardwareTab :=
  match h with
  | Arm d => toggled d s
  | _ => s
  end.

(** What the server does with the [k]-th of the commands, the earlier ones
    having been posted from state [st]. *)
Definition answer_to (srv : Server) (st : State) (cmds : list string) (k : nat)
    : Outcome :=
  srv (posted st ++ map (command_post (self st)) (firstn k cmds))%list
      (command_post (self st) (nth k cmds "")).

(** A server that accepts the first POST it sees and fails every later
    one with a 500. *)
Definition failing_after_first : Server :=
  fun hist _ =>
    match hist with
    | [] => Responds 200 "OK"
    | _ :: _ => Responds 500 "Internal Server Error"
    end.

(** ** Vocabulary of further statements *)

(** Calls one after the other, each against the server of its moment. *)
Fixpoint run_calls (cs : list (Call * Server)) (st : State) : State :=
  match cs with
  | [] => st
  | (c, srv) :: rest => run_calls rest (exec (call c) srv st)
  end.

(** What the handlers only read: the connection, the endpoint and the
    values of the input widgets. *)
Definition settings (s : HardwareTab) : bool * ApiConfig * (Z * Z * string * Z * Z) :=
  (api_connected s, api_config s,
   (cue_frequency_intslider s, cue_duration_intslider s, stim_mode_widget s,
    stim_frequency_slider s, stim_duration_slider s)).

(** A toggle button but for its icon. *)
Definition face (t : Toggle) : string * bool * string :=
  (name t, value t, button_type t).

(** The most POSTs one call of a handler can issue. *)
Definition max_posts (h : Handler) : nat :=
  match h with
  | Set_active_lever => 1
  | Arm _ => 1
  | Send_cue_configuration => 2
  | Send_laser_configuration => 3
  end.

(** The command strings the tab can send. *)
Definition in_vocabulary (cmd : string) : Prop :=
  cmd = "ACTIVE_LEVER_LH" \/ cmd = "ACTIVE_LEVER_RH"
  \/ (exists d, cmd = ARM d \/ cmd = DISARM d)
  \/ (exists n : Z,
         cmd = "SET_FREQUENCY_CS:" ++ str_int n
         \/ cmd = "SET_DURATION_CS:" ++ str_int n
         \/ cmd = "LASER_DURATION:" ++ str_int n
         \/ cmd = "LASER_FREQUENCY:" ++ str_int n)
  \/ (exists mode, cmd = "LASER_STIM_MODE_" ++ upper mode).


(** What a call may add to the log: the request to connect, or an error
    under the label of one of the handlers. *)
Definition handler_entry (e : LogEntry) : Prop :=
  e = please_connect \/ exists h text, e = Error_entry (handler_label h) text.

(** How a call leaves the state: log and POSTs have only grown, by at most
    [n_log] entries and [n_post] requests, the requests built from the
    configuration at hand for commands among [cmds], and the settings and
    the buttons' faces are as before. *)
Definition grown (st st' : State) (n_log n_post : nat) (cmds : string -> Prop) : Prop :=
  exists entries reqs,
    log (self st') = (log (self st) ++ entries)%list
    /\ posted st' = (posted st ++ reqs)%list
    /\ (List.length entries <= n_log)%nat
    /\ (List.length reqs <= n_post)%nat
    /\ Forall handler_entry entries
    /\ Forall (fun req => exists data,
                  cmds data /\ req = command_post (self st) data) reqs
    /\ settings (self st') = settings (self st)
    /\ (forall b, face (toggle (self st') b) = face (toggle (self st) b)).

(** What the commands sent so far have last told a device: armed after
    its ARM command, disarmed after its DISARM command, as before after
    any other command. *)
Fixpoint last_order (d : Device) (cmds : list string) (current : bool) : bool :=
  match cmds with
  | [] => current
  | cmd :: rest =>
      last_order d rest
        (if String.eqb cmd (ARM d) then true
         else if String.eqb cmd (DISARM d) then false
         else current)
  end.

(** * Properties *)

(** ** The definitions on concrete inputs *)

Example upper_active_press : upper "Active-Press" = "ACTIVE-PRESS".
Proof. reflexivity. Qed.

Example serial_command_url_localhost :
  serial_command_url localhost = "http://127.0.0.1:8000/serial/command".
Proof. reflexivity. Qed.

Example cue_commands_init :
  cue_commands (init true localhost [])
  = ["SET_FREQUENCY_CS:8000"; "SET_DURATION_CS:1600"].
Proof. reflexivity. Qed.

Example laser_commands_init :
  laser_commands (init true localhost [])
  = ["LASER_STIM_MODE_CYCLE"; "LASER_DURATION:30"; "LASER_FREQUENCY:20"].
Proof. reflexivity. Qed.

Example http_error_msg_404 :
  http_error_msg {| status_code := 404; reason := "Not Found";
                    response_url := serial_command_url localhost |}
  = Some "404 Client Error: Not Found for url: http://127.0.0.1:8000/serial/command".
Proof. reflexivity. Qed.

Example arm_pump_refused :
  run (arm_pump (Changed true)) unreachable_server (fresh true)
  = (Returned tt,
     {| self := logged (Error_entry "Failed to arm or disarm pump" "Connection refused")
                  (set_icon arm_pump_button "unlock"
                     (set_armed pump_armed true (init true localhost [])));
        posted := [ {| timeout := 5;
                       url := "http://127.0.0.1:8000/serial/command";
                       command := "ARM_PUMP" |} ] |}).
Proof. reflexivity. Qed.

(** [set_active_lever(None)] reads [event.new] outside the [try]: the
    exception leaves the handler. *)
Example set_active_lever_none :
  run (set_active_lever PyNone) unreachable_server (fresh true)
  = (Raised (AttributeError "'NoneType' object has no attribute 'new'"), fresh true).
Proof. reflexivity. Qed.

(** On an item that is neither lever [data] is never assigned: the use of
    it inside the [try] raises, which is logged, and nothing is posted. *)
Example set_active_lever_other_item :
  exec (set_active_lever (Clicked "Both")) unreachable_server (fresh true)
  = {| self := logged
                 (Error_entry "Failed to set active lever"
                    "cannot access local variable 'data' where it is not associated with a value")
                 (init true localhost []);
       posted := [] |}.
Proof. reflexivity. Qed.

Example remainder_1_by_005 :
  Np.remainder 1 0.05 = 0.04999999999999995%float.
Proof. reflexivity. Qed.

Example remainder_signs :
  Np.remainder (-1) 3 = 2%float /\ Np.remainder 1 (-3) = (-2)%float
  /\ Np.remainder 5.5 2 = 1.5%float.
Proof. repeat split. Qed.

Example linspace_ends :
  nth 0 (Np.linspace 0 1 1000) low = 0%float
  /\ nth 1 (Np.linspace 0 1 1000) low = (1 / 999)%float
  /\ nth 999 (Np.linspace 0 1 1000) low = 1%float.
Proof. repeat split; vm_compute; reflexivity. Qed.

(** ** What one call of a handler does *)

Ltac by_cases_on_post srv :=
  cbv zeta; simpl;
  repeat match goal with
         | |- context [http_error_msg ?r] => destruct (http_error_msg r); simpl
         | |- context [srv ?hist ?req] => destruct (srv hist req); simpl
         end;
  try reflexivity.

Ltac unfold_handlers :=
  unfold run, exec, invoke, arm_handler, set_active_lever, arm_lh_lever, arm_rh_lever,
    arm_cs, arm_pump, arm_lick_circuit, arm_frames, arm_laser,
    send_cue_configuration, send_laser_configuration,
    bind, get_self, try_except, get_api_config, ret.

Lemma invoke_not_connected (h : Handler) (event : Event) (srv : Server) (st : State) :
  api_connected (self st) = false ->
  run (invoke h event) srv st
  = (Returned tt, {| self := logged please_connect (self st); posted := posted st |}).
Proof.
  intros Hc.
  destruct h as [ | d | | ]; try destruct d;
    unfold_handlers; rewrite Hc; reflexivity.
Qed.

Lemma arm_handler_connected (d : Device) (event : Event) (srv : Server) (st : State) :
  api_connected (self st) = true ->
  run (arm_handler d event) srv st
  = (Returned tt,
     after_post (error_label d) (toggled d (self st))
       (command_post (self st) (toggle_command d (self st))) srv st).
Proof.
  intros Hc.
  destruct d; unfold_handlers;
    unfold after_post, toggled, toggle_command, command_post, failure;
    rewrite Hc; simpl;
    match goal with |- context [armed (self st) ?f] => destruct (armed (self st) f) end;
    simpl; unfold requests_post, raise_for_status; simpl; by_cases_on_post srv.
Qed.

Lemma set_active_lever_connected (item data : string) (srv : Server) (st : State) :
  api_connected (self st) = true ->
  (item = "LH Lever" /\ data = "ACTIVE_LEVER_LH")
  \/ (item = "RH Lever" /\ data = "ACTIVE_LEVER_RH") ->
  run (set_active_lever (Clicked item)) srv st
  = (Returned tt,
     after_post "Failed to set active lever" (self st)
       (command_post (self st) data) srv st).
Proof.
  intros Hc [[-> ->] | [-> ->]];
    unfold_handlers; unfold after_post, command_post, failure;
    rewrite Hc; simpl; unfold requests_post, raise_for_status; simpl;
    destruct st as [s hist]; simpl; by_cases_on_post srv.
Qed.

Lemma send_cue_configuration_connected (event : Event) (srv : Server) (st : State) :
  api_connected (self st) = true ->
  run (send_cue_configuration event) srv st
  = (Returned tt,
     send_all "Failed to send CS configuration" (cue_commands (self st)) srv st).
Proof.
  intros Hc. unfold_handlers. unfold cue_commands, send_all, command_post, failure.
  rewrite Hc; simpl. unfold requests_post, raise_for_status; simpl.
  destruct st as [s hist]; simpl. by_cases_on_post srv.
Qed.

Lemma send_laser_configuration_connected (event : Event) (srv : Server) (st : State) :
  api_connected (self st) = true ->
  run (send_laser_configuration event) srv st
  = (Returned tt,
     send_all "Failed to send laser configuration" (laser_commands (self st)) srv st).
Proof.
  intros Hc. unfold_handlers. unfold laser_commands, send_all, command_post, failure.
  rewrite Hc; simpl. unfold requests_post, raise_for_status; simpl.
  destruct st as [s hist]; simpl. by_cases_on_post srv.
Qed.

(** ** The dispatch table and [arm_devices] *)

Lemma dict_get_component_name (d : Device) :
  dict_get hardware_components (component_name d) = Some (arm_handler d).
Proof. destruct d; reflexivity. Qed.

Lemma dict_get_hardware_components (device : string) (h : Event -> M unit) :
  dict_get hardware_components device = Some h ->
  exists d, device = component_name d /\ h = arm_handler d.
Proof.
  unfold hardware_components, dict_get; intros H.
  repeat match type of H with
         | context [String.eqb ?k device] =>
             destruct (String.eqb_spec k device) as [<- | _]; cbv iota in H
         end;
    try discriminate; injection H as <-.
  - exists LH_Lever; split; reflexivity.
  - exists RH_Lever; split; reflexivity.
  - exists Cue; split; reflexivity.
  - exists Pump; split; reflexivity.
  - exists Lick_Circuit; split; reflexivity.
  - exists Laser; split; reflexivity.
  - exists Microscope; split; reflexivity.
Qed.

Lemma dict_get_unknown (device : string) :
  (forall d, device <> component_name d) ->
  dict_get hardware_components device = None.
Proof.
  intros Hne. destruct (dict_get hardware_components device) as [h | ] eqn:E.
  - apply dict_get_hardware_components in E as (d & -> & _).
    exfalso; exact (Hne d eq_refl).
  - reflexivity.
Qed.

Lemma arm_devices_nil (srv : Server) (st : State) :
  run (arm_devices []) srv st = (Returned tt, st).
Proof. reflexivity. Qed.

Lemma arm_devices_cons (device : string) (devices : list string)
    (srv : Server) (st : State) :
  run (arm_devices (device :: devices)) srv st
  = match dict_get hardware_components device with
    | Some arm_device =>
        match arm_device PyNone srv st with
        | (Returned _, st') => run (arm_devices devices) srv st'
        | (Raised e, st') => (Raised e, st')
        end
    | None => run (arm_devices devices) srv st
    end.
Proof.
  unfold run, arm_devices; cbn [for_each]; unfold bind at 1.
  destruct (dict_get hardware_components device); reflexivity.
Qed.

Lemma arm_devices_known (d : Device) (devices : list string) (srv : Server) (st : State) :
  run (arm_devices (component_name d :: devices)) srv st
  = run (arm_devices devices) srv (exec (arm_handler d PyNone) srv st).
Proof.
  rewrite arm_devices_cons, dict_get_component_name. unfold exec.
  destruct (api_connected (self st)) eqn:Hc.
  - pose proof (arm_handler_connected d PyNone srv st Hc) as E.
    unfold run in E; rewrite E; reflexivity.
  - pose proof (invoke_not_connected (Arm d) PyNone srv st Hc) as E.
    unfold run in E; simpl in E; rewrite E; reflexivity.
Qed.

Lemma arm_devices_unknown (device : string) (devices : list string)
    (srv : Server) (st : State) :
  dict_get hardware_components device = None ->
  run (arm_devices (device :: devices)) srv st = run (arm_devices devices) srv st.
Proof. intros E. rewrite arm_devices_cons, E; reflexivity. Qed.

Lemma arm_devices_returns (devices : list string) (srv : Server) (st : State) :
  fst (run (arm_devices devices) srv st) = Returned tt.
Proof.
  revert st; induction devices as [ | device devices IH]; intros st.
  - reflexivity.
  - destruct (dict_get hardware_components device) as [h | ] eqn:E.
    + apply dict_get_hardware_components in E as (d & -> & _).
      rewrite arm_devices_known; apply IH.
    + rewrite (arm_devices_unknown _ _ _ _ E); apply IH.
Qed.

(** ** Log bookkeeping *)

Lemma logged_all_nil (s : HardwareTab) : logged_all [] s = s.
Proof. destruct s; unfold logged_all; simpl; rewrite app_nil_r; reflexivity. Qed.

Lemma logged_all_cons (e : LogEntry) (es : list LogEntry) (s : HardwareTab) :
  logged_all es (logged e s) = logged_all (e :: es) s.
Proof. unfold logged_all, logged; simpl; rewrite <- app_assoc; reflexivity. Qed.

Lemma state_eta (st : State) : {| self := self st; posted := posted st |} = st.
Proof. destruct st; reflexivity. Qed.

Lemma arm_devices_not_connected (devices : list string) (srv : Server) (st : State) :
  api_connected (self st) = false ->
  run (arm_devices devices) srv st
  = (Returned tt,
     {| self := logged_all
                  (repeat please_connect (List.length (filter is_component devices)))
                  (self st);
        posted := posted st |}).
Proof.
  revert st; induction devices as [ | device devices IH]; intros st Hc.
  - rewrite arm_devices_nil; simpl; rewrite logged_all_nil, state_eta; reflexivity.
  - simpl filter; unfold is_component at 1.
    destruct (dict_get hardware_components device) as [h | ] eqn:E.
    + apply dict_get_hardware_components in E as (d & -> & _).
      rewrite arm_devices_known.
      pose proof (invoke_not_connected (Arm d) PyNone srv st Hc) as E.
      unfold exec; unfold run in E; simpl in E; rewrite E; simpl snd.
      rewrite IH by exact Hc. simpl. rewrite logged_all_cons; reflexivity.
    + rewrite (arm_devices_unknown _ _ _ _ E); apply IH, Hc.
Qed.

(** ** Flags and icons under the handlers *)

Lemma send_all_frame (label : string) (cmds : list string) (srv : Server) (st : State) :
  armed (self (send_all label cmds srv st)) = armed (self st)
  /\ toggle (self (send_all label cmds srv st)) = toggle (self st)
  /\ api_connected (self (send_all label cmds srv st)) = api_connected (self st).
Proof.
  revert st; induction cmds as [ | data rest IH]; intros st; simpl.
  - repeat split.
  - destruct (failure _ _).
    + repeat split.
    + apply (IH {| self := self st; posted := _ |}).
Qed.

Lemma other_handlers_frame (h : Handler) (event : Event) (srv : Server) (st : State) :
  (forall d, h <> Arm d) ->
  armed (self (exec (invoke h event) srv st)) = armed (self st)
  /\ toggle (self (exec (invoke h event) srv st)) = toggle (self st).
Proof.
  intros Hh. destruct (api_connected (self st)) eqn:Hc.
  - destruct h as [ | d | | ].
    + unfold exec, invoke, set_active_lever, bind, get_self, get_api_config,
        event_new_is, try_except, local, ret, raise.
      rewrite Hc; cbn [negb].
      destruct event as [ | item | b ]; cbn [snd fst self].
      * split; reflexivity.
      * destruct (String.eqb item "LH Lever"); [ | destruct (String.eqb item "RH Lever")];
          unfold requests_post, raise_for_status; by_cases_on_post srv;
          split; reflexivity.
      * split; reflexivity.
    + exfalso; exact (Hh d eq_refl).
    + unfold exec. pose proof (send_cue_configuration_connected event srv st Hc) as E.
      unfold run in E; simpl invoke; rewrite E; simpl snd.
      destruct (send_all_frame "Failed to send CS configuration"
                  (cue_commands (self st)) srv st) as (? & ? & _); split; assumption.
    + unfold exec. pose proof (send_laser_configuration_connected event srv st Hc) as E.
      unfold run in E; simpl invoke; rewrite E; simpl snd.
      destruct (send_all_frame "Failed to send laser configuration"
                  (laser_commands (self st)) srv st) as (? & ? & _); split; assumption.
  - unfold exec. pose proof (invoke_not_connected h event srv st Hc) as E.
    unfold run in E; rewrite E; split; reflexivity.
Qed.

Lemma toggled_flag (d : Device) (s : HardwareTab) :
  armed (toggled d s) (flag_of d) = negb (armed s (flag_of d)).
Proof. unfold toggled; destruct (armed s (flag_of d)); destruct d; reflexivity. Qed.

Lemma toggled_icon (d : Device) (s : HardwareTab) :
  icon (toggle (toggled d s) (button_of d))
  = if armed s (flag_of d) then "lock" else "unlock".
Proof. unfold toggled; destruct (armed s (flag_of d)); destruct d; reflexivity. Qed.

Lemma toggled_agrees (d d' : Device) (s : HardwareTab) :
  icon_agrees s d' -> icon_agrees (toggled d s) d'.
Proof.
  unfold icon_agrees, toggled.
  destruct (armed s (flag_of d)) eqn:E; destruct d, d'; simpl in *;
    try rewrite E; intros H; try exact H; reflexivity.
Qed.

Lemma after_post_agrees (label : string) (s : HardwareTab) (req : Request)
    (srv : Server) (st : State) (d : Device) :
  icon_agrees s d -> icon_agrees (self (after_post label s req srv st)) d.
Proof.
  unfold after_post; simpl. destruct (failure _ _); intros H; exact H.
Qed.

Lemma invoke_agrees (h : Handler) (event : Event) (srv : Server) (st : State) :
  (forall d, icon_agrees (self st) d) ->
  forall d, icon_agrees (self (exec (invoke h event) srv st)) d.
Proof.
  intros H d.
  assert (Hother : (forall d', h <> Arm d') ->
                   icon_agrees (self (exec (invoke h event) srv st)) d).
  { intros Hh. destruct (other_handlers_frame h event srv st Hh) as [Ea Et].
    unfold icon_agrees; rewrite Ea, Et; apply H. }
  destruct h as [ | d' | | ]; try (apply Hother; discriminate).
  destruct (api_connected (self st)) eqn:Hc.
  - unfold exec. pose proof (arm_handler_connected d' event srv st Hc) as E.
    unfold run in E; simpl invoke; rewrite E; simpl snd.
    apply after_post_agrees, toggled_agrees, H.
  - unfold exec. pose proof (invoke_not_connected (Arm d') event srv st Hc) as E.
    unfold run in E; rewrite E; apply H.
Qed.

Lemma arm_devices_agrees (devices : list string) (srv : Server) (st : State) :
  (forall d, icon_agrees (self st) d) ->
  forall d, icon_agrees (self (exec (arm_devices devices) srv st)) d.
Proof.
  revert st; induction devices as [ | device devices IH]; intros st H.
  - exact H.
  - unfold exec in *.
    destruct (dict_get hardware_components device) as [h | ] eqn:E.
    + apply dict_get_hardware_components in E as (d' & -> & _).
      fold (run (arm_devices (component_name d' :: devices)) srv st).
      rewrite arm_devices_known. apply IH.
      apply (invoke_agrees (Arm d') PyNone srv st H).
    + fold (run (arm_devices (device :: devices)) srv st).
      rewrite (arm_devices_unknown _ _ _ _ E). apply IH, H.
Qed.

Lemma reachable_icon_agrees (st : State) :
  reachable st -> forall d, icon_agrees (self st) d.
Proof.
  induction 1 as [connected config entries | st c srv _ IH | st self' _ IH Ha Hi].
  - intros d; destruct d; reflexivity.
  - destruct c as [h event | devices].
    + apply invoke_agrees, IH.
    + apply arm_devices_agrees, IH.
  - intros d; unfold icon_agrees in *; simpl. rewrite Ha, Hi; apply IH.
Qed.

Lemma after_post_self (label : string) (s : HardwareTab) (req : Request)
    (srv : Server) (st : State) :
  posted (after_post label s req srv st) = (posted st ++ [req])%list
  /\ (self (after_post label s req srv st) = s
      \/ exists e, self (after_post label s req srv st) = logged e s).
Proof.
  unfold after_post; simpl; split; [reflexivity | ].
  destruct (failure _ _); [right; eexists | left]; reflexivity.
Qed.

(** One toggle, and a second one after it, each possibly followed by a
    log entry. *)
Lemma toggled_once (d : Device) (s0 s1 : HardwareTab) :
  s1 = toggled d s0 \/ (exists e, s1 = logged e (toggled d s0)) ->
  armed s1 (flag_of d) = negb (armed s0 (flag_of d))
  /\ icon (toggle s1 (button_of d))
     = (if armed s0 (flag_of d) then "lock" else "unlock")
  /\ api_connected s1 = api_connected s0
  /\ api_config s1 = api_config s0.
Proof.
  intros [-> | [e ->]]; unfold toggled;
    destruct (armed s0 (flag_of d)); destruct d; repeat split.
Qed.


(** ** Which outcomes count as failures *)

Lemma failure_of_failed (u : string) (o : Outcome) :
  failed o ->
  exists text, failure u o = Some text
               /\ forall msg, o = Raises msg -> text = msg.
Proof.
  destruct o as [msg | code why]; simpl.
  - intros _. exists msg; split; [reflexivity | ]. intros ? [= <-]; reflexivity.
  - intros Hcode. unfold http_error_msg; simpl.
    destruct (Z.leb_spec 400 code); [ | lia].
    destruct (Z.ltb_spec code 500); simpl.
    + eexists; split; [reflexivity | discriminate].
    + destruct (Z.leb_spec 500 code); [ | lia].
      destruct (Z.ltb_spec code 600); [ | lia]. simpl.
      eexists; split; [reflexivity | discriminate].
Qed.

Lemma failure_of_other_status (u : string) (code : Z) (why : string) :
  ~ (400 <= code < 600) -> failure u (Responds code why) = None.
Proof.
  intros Hcode. unfold failure, http_error_msg; simpl.
  destruct (Z.leb_spec 400 code); simpl.
  - destruct (Z.ltb_spec code 500); simpl; [lia | ].
    destruct (Z.leb_spec 500 code); [ | lia].
    destruct (Z.ltb_spec code 600); [lia | reflexivity].
  - destruct (Z.leb_spec 500 code); [lia | reflexivity].
Qed.

(** * The claims *)

(** C1 (as amended). When [api_connected] is false, each of the ten widget
    handlers (the seven arm/disarm handlers, [set_active_lever],
    [send_cue_configuration], [send_laser_configuration]) returns after
    recording exactly one message, "Please connect to the API first.",
    with no POST issued and nothing else of the state changed. [arm_devices]
    issues no POST and changes nothing else either, but records one such
    message for every listed name that is a key of the dispatch table. *)
Theorem not_connected_one_message_per_handler (srv : Server) (st : State) :
  api_connected (self st) = false ->
  (forall h event,
      run (invoke h event) srv st
      = (Returned tt,
         {| self := logged please_connect (self st); posted := posted st |}))
  /\ (forall devices,
         run (arm_devices devices) srv st
         = (Returned tt,
            {| self := logged_all
                         (repeat please_connect
                            (List.length (filter is_component devices)))
                         (self st);
               posted := posted st |})).
Proof.
  intros Hc; split.
  - intros h event; apply invoke_not_connected, Hc.
  - intros devices; apply arm_devices_not_connected, Hc.
Qed.

Lemma not_connected_one_message_witness :
  api_connected (self (fresh false)) = false
  /\ log (self (exec (send_cue_configuration PyNone) unreachable_server (fresh false)))
     = [please_connect]
  /\ posted (exec (send_cue_configuration PyNone) unreachable_server (fresh false))
     = [].
Proof.
  split; [reflexivity | ].
  pose proof (proj1 (not_connected_one_message_per_handler
                       unreachable_server (fresh false) eq_refl)
                Send_cue_configuration PyNone) as E.
  unfold exec; unfold run in E; simpl invoke in E; rewrite E.
  split; reflexivity.
Defined.

(** C1, as stated, fails for [arm_devices]: not connected, two known names
    give two messages and an empty list gives none. *)
Lemma arm_devices_not_connected_two_messages :
  api_connected (self (fresh false)) = false
  /\ log (self (exec (arm_devices ["Pump"; "Laser"]) unreachable_server (fresh false)))
     = [please_connect; please_connect]
  /\ log (self (exec (arm_devices []) unreachable_server (fresh false))) = [].
Proof. repeat split. Qed.

(** C2 (as amended). In any state the tab can be in, while connected, two
    invocations of a device's arm/disarm handler bring its flag and icon
    back to what they were and issue exactly two POSTs: one ARM and one
    DISARM command of the device, the ARM command first when the device
    started disarmed, the DISARM command first when it started armed. *)
Theorem toggle_twice (d : Device) (e1 e2 : Event) (srv1 srv2 : Server) (st : State) :
  reachable st ->
  api_connected (self st) = true ->
  let st2 := exec (arm_handler d e2) srv2 (exec (arm_handler d e1) srv1 st) in
  armed (self st2) (flag_of d) = armed (self st) (flag_of d)
  /\ icon (toggle (self st2) (button_of d)) = icon (toggle (self st) (button_of d))
  /\ posted st2
     = (posted st
          ++ map (command_post (self st))
               (if armed (self st) (flag_of d) then [DISARM d; ARM d]
                else [ARM d; DISARM d]))%list.
Proof.
  intros Hreach Hc; cbv zeta; unfold exec.
  pose proof (reachable_icon_agrees st Hreach d) as Hagree; unfold icon_agrees in Hagree.
  pose proof (arm_handler_connected d e1 srv1 st Hc) as E1.
  unfold run in E1; rewrite E1; simpl snd; clear E1.
  remember (after_post (error_label d) (toggled d (self st))
              (command_post (self st) (toggle_command d (self st))) srv1 st)
    as st1 eqn:Est1.
  assert (H1 : posted st1
               = (posted st ++ [command_post (self st) (toggle_command d (self st))])%list
               /\ (self st1 = toggled d (self st)
                   \/ exists e, self st1 = logged e (toggled d (self st)))).
  { subst st1; apply after_post_self. }
  destruct H1 as [Hp1 Hs1].
  destruct (toggled_once d _ _ Hs1) as (Hf1 & Hi1 & Hc1 & Hcfg1).
  rewrite Hc in Hc1.
  pose proof (arm_handler_connected d e2 srv2 st1 Hc1) as E2.
  unfold run in E2; rewrite E2; simpl snd; clear E2.
  destruct (after_post_self (error_label d) (toggled d (self st1))
              (command_post (self st1) (toggle_command d (self st1))) srv2 st1)
    as [Hp2 Hs2].
  destruct (toggled_once d _ _ Hs2) as (Hf2 & Hi2 & _ & _).
  split; [ | split].
  - rewrite Hf2, Hf1; apply negb_involutive.
  - rewrite Hi2, Hf1, Hagree. destruct (armed (self st) (flag_of d)); reflexivity.
  - rewrite Hp2, Hp1, <- app_assoc; f_equal.
    unfold command_post, toggle_command; rewrite Hcfg1, Hf1.
    destruct (armed (self st) (flag_of d)); reflexivity.
Qed.

Lemma toggle_twice_witness :
  reachable (fresh true)
  /\ api_connected (self (fresh true)) = true
  /\ map command
       (posted (exec (arm_handler Pump (Changed false)) (answering 200 "OK")
                  (exec (arm_handler Pump (Changed true)) unreachable_server
                     (fresh true))))
     = ["ARM_PUMP"; "DISARM_PUMP"].
Proof.
  split; [apply reach_init | split; [reflexivity | ] ].
  rewrite (proj2 (proj2 (toggle_twice Pump (Changed true) (Changed false)
                           unreachable_server (answering 200 "OK") (fresh true)
                           (reach_init true localhost []) eq_refl))).
  reflexivity.
Defined.

(** C2, as stated, fails from a state in which the device is armed: the two
    invocations then send the DISARM command first. *)
Lemma toggle_twice_from_armed_sends_disarm_first :
  reachable pump_armed_state
  /\ api_connected (self pump_armed_state) = true
  /\ armed (self pump_armed_state) pump_armed = true
  /\ icon (toggle (self pump_armed_state) arm_pump_button) = "unlock"
  /\ map command
       (posted (exec (arm_pump (Changed true)) (answering 200 "OK")
                  (exec (arm_pump (Changed false)) (answering 200 "OK")
                     pump_armed_state)))
     = (map command (posted pump_armed_state) ++ ["DISARM_PUMP"; "ARM_PUMP"])%list.
Proof.
  split; [ | repeat split].
  exact (reach_call (fresh true) (Callback (Arm Pump) (Changed true))
           (answering 200 "OK") (reach_init true localhost [])).
Qed.

(** C5. In every state reached from [__init__] by handler calls (against
    any server, so also when a POST fails), each device's flag is true
    exactly when its icon is "unlock" and false exactly when it is
    "lock". *)
Theorem flag_agrees_with_icon (st : State) :
  reachable st ->
  forall d,
    (armed (self st) (flag_of d) = true
     <-> icon (toggle (self st) (button_of d)) = "unlock")
    /\ (armed (self st) (flag_of d) = false
        <-> icon (toggle (self st) (button_of d)) = "lock").
Proof.
  intros Hr d. pose proof (reachable_icon_agrees st Hr d) as H.
  unfold icon_agrees in H; rewrite H.
  destruct (armed (self st) (flag_of d)); repeat split;
    intros; try reflexivity; discriminate.
Qed.

Lemma flag_agrees_with_icon_witness :
  reachable (exec (call (Callback (Arm Laser) (Changed true)))
               unreachable_server (fresh true))
  /\ armed (self (exec (call (Callback (Arm Laser) (Changed true)))
                    unreachable_server (fresh true))) laser_armed = true
  /\ icon (toggle (self (exec (call (Callback (Arm Laser) (Changed true)))
                           unreachable_server (fresh true))) arm_laser_button)
     = "unlock".
Proof.
  assert (Hr : reachable (exec (call (Callback (Arm Laser) (Changed true)))
                            unreachable_server (fresh true))).
  { apply reach_call, reach_init. }
  split; [exact Hr | ].
  split; [reflexivity | ].
  exact (proj1 (proj1 (flag_agrees_with_icon _ Hr Laser)) eq_refl).
Defined.

(** C6. Connected, when the POST of an arm/disarm handler fails (the call
    raises, or the response has an error status) the flag and the icon
    stay as the handler has just set them: the state is the toggled one
    with exactly one more log entry, an error carrying the handler's label
    and the error text; the POST is listed as issued. *)
Theorem failed_post_keeps_toggle (d : Device) (event : Event) (srv : Server)
    (st : State) :
  api_connected (self st) = true ->
  failed (srv (posted st) (command_post (self st) (toggle_command d (self st)))) ->
  exists text,
    exec (arm_handler d event) srv st
    = {| self := logged (Error_entry (error_label d) text) (toggled d (self st));
         posted := (posted st
                      ++ [command_post (self st) (toggle_command d (self st))])%list |}
    /\ (forall msg,
           srv (posted st) (command_post (self st) (toggle_command d (self st)))
           = Raises msg -> text = msg)
    /\ armed (self (exec (arm_handler d event) srv st)) (flag_of d)
       = negb (armed (self st) (flag_of d))
    /\ icon (toggle (self (exec (arm_handler d event) srv st)) (button_of d))
       = (if armed (self st) (flag_of d) then "lock" else "unlock")
    /\ log (self (exec (arm_handler d event) srv st))
       = (log (self st) ++ [Error_entry (error_label d) text])%list.
Proof.
  intros Hc Hfail.
  destruct (failure_of_failed
              (url (command_post (self st) (toggle_command d (self st)))) _ Hfail)
    as (text & Htext & Hmsg).
  exists text.
  assert (E : exec (arm_handler d event) srv st
              = {| self := logged (Error_entry (error_label d) text)
                             (toggled d (self st));
                   posted := (posted st
                                ++ [command_post (self st)
                                      (toggle_command d (self st))])%list |}).
  { unfold exec. pose proof (arm_handler_connected d event srv st Hc) as E.
    unfold run in E; rewrite E; simpl snd. unfold after_post; rewrite Htext.
    reflexivity. }
  rewrite E; simpl self.
  destruct (toggled_once d (self st)
              (logged (Error_entry (error_label d) text) (toggled d (self st))))
    as (Hf & Hi & _ & _).
  { right; eexists; reflexivity. }
  repeat split; try assumption.
  unfold toggled; destruct (armed (self st) (flag_of d)); reflexivity.
Qed.

Lemma failed_post_keeps_toggle_witness :
  api_connected (self (fresh true)) = true
  /\ failed (unreachable_server (posted (fresh true))
               (command_post (self (fresh true))
                  (toggle_command RH_Lever (self (fresh true)))))
  /\ log (self (exec (arm_handler RH_Lever (Changed true)) unreachable_server
                  (fresh true)))
     = [Error_entry "Failed to arm or disarm RH lever" "Connection refused"]
  /\ armed (self (exec (arm_handler RH_Lever (Changed true)) unreachable_server
                    (fresh true))) rh_lever_armed = true
  /\ icon (toggle (self (exec (arm_handler RH_Lever (Changed true))
                           unreachable_server (fresh true))) arm_rh_lever_button)
     = "unlock".
Proof.
  split; [reflexivity | split; [exact I | ] ].
  destruct (failed_post_keeps_toggle RH_Lever (Changed true) unreachable_server
              (fresh true) eq_refl I) as (text & _ & Hmsg & Hflag & Hicon & Hlog).
  rewrite Hlog, (Hmsg "Connection refused" eq_refl).
  split; [reflexivity | split; [exact Hflag | exact Hicon] ].
Defined.

(** ** Sending up to the first failure *)

Lemma failure_not_failed (u : string) (o : Outcome) :
  ~ failed o -> failure u o = None.
Proof.
  destruct o as [msg | code why]; intros Hn.
  - exfalso; apply Hn; exact I.
  - apply failure_of_other_status; exact Hn.
Qed.

Lemma answer_to_head (srv : Server) (st : State) (data : string) (rest : list string) :
  answer_to srv st (data :: rest) 0 = srv (posted st) (command_post (self st) data).
Proof. unfold answer_to; simpl; rewrite app_nil_r; reflexivity. Qed.

Lemma answer_to_tail (srv : Server) (st : State) (data : string)
    (rest : list string) (j : nat) :
  answer_to srv
    {| self := self st;
       posted := (posted st ++ [command_post (self st) data])%list |} rest j
  = answer_to srv st (data :: rest) (S j).
Proof. unfold answer_to; simpl; rewrite <- app_assoc; reflexivity. Qed.

Lemma send_all_first_failure (label : string) (cmds : list string) (srv : Server)
    (st : State) (k : nat) :
  (k < List.length cmds)%nat ->
  (forall j, (j < k)%nat -> ~ failed (answer_to srv st cmds j)) ->
  failed (answer_to srv st cmds k) ->
  exists text,
    send_all label cmds srv st
    = {| self := logged (Error_entry label text) (self st);
         posted := (posted st
                      ++ map (command_post (self st)) (firstn (S k) cmds))%list |}
    /\ (forall msg, answer_to srv st cmds k = Raises msg -> text = msg).
Proof.
  revert st k; induction cmds as [ | data rest IH]; intros st k Hk Hbefore Hfail.
  - simpl in Hk; lia.
  - cbn [send_all]; cbv zeta. destruct k as [ | k'].
    + rewrite answer_to_head in Hfail.
      destruct (failure_of_failed (url (command_post (self st) data)) _ Hfail)
        as (text & Htext & Hmsg).
      rewrite Htext. exists text; split; [reflexivity | ].
      intros msg; rewrite answer_to_head; apply Hmsg.
    + pose proof (Hbefore 0%nat ltac:(lia)) as H0. rewrite answer_to_head in H0.
      rewrite (failure_not_failed _ _ H0).
      destruct (IH {| self := self st;
                      posted := (posted st ++ [command_post (self st) data])%list |}
                  k') as (text & E & Hmsg).
      * simpl in Hk; lia.
      * intros j Hj; rewrite answer_to_tail; apply Hbefore; lia.
      * rewrite answer_to_tail; exact Hfail.
      * exists text; split.
        -- rewrite E; simpl; rewrite <- app_assoc; reflexivity.
        -- intros msg; rewrite <- answer_to_tail; apply Hmsg.
Qed.

Lemma send_all_no_failure (label : string) (cmds : list string) (srv : Server)
    (st : State) :
  (forall j, (j < List.length cmds)%nat -> ~ failed (answer_to srv st cmds j)) ->
  send_all label cmds srv st
  = {| self := self st;
       posted := (posted st ++ map (command_post (self st)) cmds)%list |}.
Proof.
  revert st; induction cmds as [ | data rest IH]; intros st Hall.
  - simpl; rewrite app_nil_r; symmetry; apply state_eta.
  - cbn [send_all]; cbv zeta.
    pose proof (Hall 0%nat ltac:(simpl; lia)) as H0. rewrite answer_to_head in H0.
    rewrite (failure_not_failed _ _ H0), IH.
    + simpl; rewrite <- app_assoc; reflexivity.
    + intros j Hj; rewrite answer_to_tail; apply Hall; simpl; lia.
Qed.

Lemma command_post_prepared (h : Handler) (s : HardwareTab) (data : string) :
  command_post (prepared h s) data = command_post s data.
Proof.
  destruct h as [ | d | | ]; try reflexivity.
  unfold prepared, toggled; destruct (armed s (flag_of d)); reflexivity.
Qed.

Lemma answer_to_prepared (h : Handler) (srv : Server) (st : State)
    (cmds : list string) (k : nat) :
  answer_to srv {| self := prepared h (self st); posted := posted st |} cmds k
  = answer_to srv st cmds k.
Proof.
  unfold answer_to; simpl. rewrite command_post_prepared. do 2 f_equal.
  apply map_ext; intros data; apply command_post_prepared.
Qed.

(** Connected, every handler is: the local updates, then the commands up
    to the first failure. *)
Lemma invoke_connected (h : Handler) (event : Event) (srv : Server) (st : State) :
  api_connected (self st) = true ->
  reaches_post h event ->
  run (invoke h event) srv st
  = (Returned tt,
     send_all (handler_label h) (commands h event (self st)) srv
       {| self := prepared h (self st); posted := posted st |}).
Proof.
  intros Hc Hev. destruct h as [ | d | | ].
  - simpl in Hev; simpl invoke; simpl prepared; rewrite state_eta.
    destruct Hev as [-> | ->].
    + rewrite (set_active_lever_connected "LH Lever" "ACTIVE_LEVER_LH" srv st Hc)
        by (left; split; reflexivity).
      unfold after_post; simpl. destruct (failure _ _); reflexivity.
    + rewrite (set_active_lever_connected "RH Lever" "ACTIVE_LEVER_RH" srv st Hc)
        by (right; split; reflexivity).
      unfold after_post; simpl. destruct (failure _ _); reflexivity.
  - simpl invoke. rewrite (arm_handler_connected d event srv st Hc).
    unfold after_post, commands, handler_label; cbn [send_all]; cbv zeta.
    cbn [self posted]. rewrite (command_post_prepared (Arm d)).
    destruct (failure _ _); reflexivity.
  - simpl invoke; simpl prepared; rewrite state_eta.
    apply send_cue_configuration_connected, Hc.
  - simpl invoke; simpl prepared; rewrite state_eta.
    apply send_laser_configuration_connected, Hc.
Qed.

(** C7. Connected, [send_cue_configuration] and [send_laser_configuration]
    post their commands in order and stop at the first POST that fails:
    the POSTs up to and including that one have been issued, none after
    it, and exactly one error entry is logged for the call. In particular,
    when the first cue POST succeeds and the second fails, both have been
    issued once, in order, and the log has one more entry. *)
Theorem configuration_send_stops_at_first_failure (h : Handler) (event : Event)
    (srv : Server) (st : State) :
  api_connected (self st) = true ->
  h = Send_cue_configuration \/ h = Send_laser_configuration ->
  let cmds := commands h event (self st) in
  let st' := exec (invoke h event) srv st in
  (forall k,
      (k < List.length cmds)%nat ->
      (forall j, (j < k)%nat -> ~ failed (answer_to srv st cmds j)) ->
      failed (answer_to srv st cmds k) ->
      posted st'
      = (posted st ++ map (command_post (self st)) (firstn (S k) cmds))%list
      /\ exists text,
          self st' = logged (Error_entry (handler_label h) text) (self st))
  /\ ((forall j, (j < List.length cmds)%nat -> ~ failed (answer_to srv st cmds j)) ->
      st' = {| self := self st;
               posted := (posted st ++ map (command_post (self st)) cmds)%list |})
  /\ (h = Send_cue_configuration ->
      let r1 := command_post (self st)
                  ("SET_FREQUENCY_CS:" ++ str_int (cue_frequency_intslider (self st))) in
      let r2 := command_post (self st)
                  ("SET_DURATION_CS:" ++ str_int (cue_duration_intslider (self st))) in
      ~ failed (srv (posted st) r1) ->
      failed (srv (posted st ++ [r1])%list r2) ->
      posted st' = (posted st ++ [r1; r2])%list
      /\ exists text,
          log (self st')
          = (log (self st)
               ++ [Error_entry "Failed to send CS configuration" text])%list).
Proof.
  intros Hc Hh; cbv zeta.
  assert (Hev : reaches_post h event) by (destruct Hh as [-> | ->]; exact I).
  assert (Hprep : prepared h (self st) = self st)
    by (destruct Hh as [-> | ->]; reflexivity).
  assert (E : exec (invoke h event) srv st
              = send_all (handler_label h) (commands h event (self st)) srv st).
  { unfold exec. pose proof (invoke_connected h event srv st Hc Hev) as E.
    unfold run in E; rewrite E; simpl snd. rewrite Hprep, state_eta; reflexivity. }
  rewrite E.
  assert (Hgeneral : forall k,
             (k < List.length (commands h event (self st)))%nat ->
             (forall j, (j < k)%nat ->
                        ~ failed (answer_to srv st (commands h event (self st)) j)) ->
             failed (answer_to srv st (commands h event (self st)) k) ->
             posted (send_all (handler_label h) (commands h event (self st)) srv st)
             = (posted st ++ map (command_post (self st))
                               (firstn (S k) (commands h event (self st))))%list
             /\ exists text,
                 self (send_all (handler_label h) (commands h event (self st)) srv st)
                 = logged (Error_entry (handler_label h) text) (self st)).
  { intros k Hk Hbefore Hfail.
    destruct (send_all_first_failure (handler_label h) _ srv st k Hk Hbefore Hfail)
      as (text & Esend & _).
    rewrite Esend; split; [reflexivity | exists text; reflexivity]. }
  split; [exact Hgeneral | split].
  - apply send_all_no_failure.
  - intros ->. intros Hok Hfail.
    destruct (Hgeneral 1%nat) as [Hposted (text & Hself)].
    + simpl; lia.
    + intros j Hj. assert (j = 0%nat) as -> by lia.
      simpl commands; unfold cue_commands; rewrite answer_to_head; exact Hok.
    + unfold answer_to; simpl; exact Hfail.
    + split; [exact Hposted | ]. exists text. rewrite Hself; reflexivity.
Qed.

Lemma configuration_send_stops_at_first_failure_witness :
  api_connected (self (fresh true)) = true
  /\ map command
       (posted (exec (send_cue_configuration PyNone) failing_after_first (fresh true)))
     = ["SET_FREQUENCY_CS:8000"; "SET_DURATION_CS:1600"]
  /\ exists text,
      log (self (exec (send_cue_configuration PyNone) failing_after_first (fresh true)))
      = [Error_entry "Failed to send CS configuration" text].
Proof.
  split; [reflexivity | ].
  destruct (proj2 (proj2 (configuration_send_stops_at_first_failure
                            Send_cue_configuration PyNone failing_after_first
                            (fresh true) eq_refl (or_introl eq_refl)))
              eq_refl) as [Hposted Hlog].
  - simpl; lia.
  - simpl; lia.
  - split; [simpl invoke in Hposted; rewrite Hposted; reflexivity | exact Hlog].
Defined.

(** C8 (as amended). Connected, for every handler on an event that takes it
    to a POST: a response whose status is from 400 to 599 is a failure (the
    call stops there and one error entry with the handler's label is
    logged), and a response with any other status, every 2xx among them,
    is a success (when all responses of the call are such, every command
    is posted and no entry is logged). *)
Theorem status_400_to_599_is_failure (h : Handler) (event : Event)
    (srv : Server) (st : State) :
  api_connected (self st) = true ->
  reaches_post h event ->
  let cmds := commands h event (self st) in
  let st' := exec (invoke h event) srv st in
  (forall k code why,
      (k < List.length cmds)%nat ->
      (forall j, (j < k)%nat -> ~ failed (answer_to srv st cmds j)) ->
      answer_to srv st cmds k = Responds code why ->
      400 <= code < 600 ->
      posted st'
      = (posted st ++ map (command_post (self st)) (firstn (S k) cmds))%list
      /\ exists text,
          log (self st')
          = (log (self st) ++ [Error_entry (handler_label h) text])%list)
  /\ ((forall j, (j < List.length cmds)%nat ->
                 exists code why,
                   answer_to srv st cmds j = Responds code why
                   /\ ~ (400 <= code < 600)) ->
      posted st' = (posted st ++ map (command_post (self st)) cmds)%list
      /\ log (self st') = log (self st)).
Proof.
  intros Hc Hev; cbv zeta.
  assert (E : exec (invoke h event) srv st
              = send_all (handler_label h) (commands h event (self st)) srv
                  {| self := prepared h (self st); posted := posted st |}).
  { unfold exec. pose proof (invoke_connected h event srv st Hc Hev) as E.
    unfold run in E; rewrite E; reflexivity. }
  rewrite E; clear E.
  set (st0 := {| self := prepared h (self st); posted := posted st |}).
  assert (Hlog0 : log (prepared h (self st)) = log (self st)).
  { destruct h as [ | d | | ]; try reflexivity.
    unfold prepared, toggled; destruct (armed (self st) (flag_of d)); reflexivity. }
  assert (Hmap : forall l, map (command_post (self st0)) l
                           = map (command_post (self st)) l).
  { intros l; apply map_ext; intros data; apply (command_post_prepared h). }
  split.
  - intros k code why Hk Hbefore Hans Hcode.
    destruct (send_all_first_failure (handler_label h) (commands h event (self st))
                srv st0 k Hk) as (text & Esend & _).
    + intros j Hj; unfold st0; rewrite answer_to_prepared; apply Hbefore, Hj.
    + unfold st0; rewrite answer_to_prepared, Hans; exact Hcode.
    + rewrite Esend; simpl posted; simpl self. rewrite Hmap. split; [reflexivity | ].
      exists text. simpl. rewrite Hlog0; reflexivity.
  - intros Hall. rewrite send_all_no_failure.
    + simpl posted; simpl self. rewrite Hmap, Hlog0. split; reflexivity.
    + intros j Hj. unfold st0; rewrite answer_to_prepared.
      destruct (Hall j Hj) as (code & why & -> & Hcode). exact Hcode.
Qed.

Lemma status_400_to_599_is_failure_witness :
  api_connected (self (fresh true)) = true
  /\ reaches_post (Arm Pump) (Changed true)
  /\ (exists text,
         log (self (exec (invoke (Arm Pump) (Changed true))
                      (answering 404 "Not Found") (fresh true)))
         = [Error_entry "Failed to arm or disarm pump" text])
  /\ log (self (exec (invoke (Arm Pump) (Changed true))
                  (answering 204 "No Content") (fresh true))) = [].
Proof.
  split; [reflexivity | split; [exact I | split] ].
  - destruct (proj1 (status_400_to_599_is_failure (Arm Pump) (Changed true)
                       (answering 404 "Not Found") (fresh true) eq_refl I)
                0%nat 404 "Not Found") as [_ Hlog].
    + simpl; lia.
    + intros j Hj; lia.
    + reflexivity.
    + lia.
    + exact Hlog.
  - reflexivity.
Defined.

(** C8, as stated, fails for a status that is neither 2xx nor 4xx/5xx: a
    304 answer to the pump's ARM command logs no error. *)
Lemma status_304_is_not_a_failure :
  api_connected (self (fresh true)) = true
  /\ answering 304 "Not Modified" (posted (fresh true))
       (command_post (self (fresh true)) "ARM_PUMP")
     = Responds 304 "Not Modified"
  /\ ~ (200 <= 304 < 300)
  /\ run (arm_pump (Changed true)) (answering 304 "Not Modified") (fresh true)
     = (Returned tt,
        {| self := toggled Pump (self (fresh true));
           posted := [command_post (self (fresh true)) "ARM_PUMP"] |})
  /\ log (self (exec (arm_pump (Changed true)) (answering 304 "Not Modified")
                  (fresh true))) = [].
Proof. repeat split. lia. Qed.

(** C9. [arm_devices] goes through the names in order. A name that is a key
    of the fixed table is looked up to its handler, which is called with
    [None] before the rest of the list is handled in the state it leaves; a
    name that is not a key is passed over with the state, log and POSTs
    included, untouched. The call returns [None], no status per device. *)
Theorem arm_devices_dispatches_in_order (srv : Server) (st : State) :
  (forall d, dict_get hardware_components (component_name d) = Some (arm_handler d))
  /\ (forall device,
         (forall d, device <> component_name d) ->
         dict_get hardware_components device = None)
  /\ run (arm_devices []) srv st = (Returned tt, st)
  /\ (forall d devices,
         run (arm_devices (component_name d :: devices)) srv st
         = run (arm_devices devices) srv (exec (arm_handler d PyNone) srv st))
  /\ (forall device devices,
         dict_get hardware_components device = None ->
         run (arm_devices (device :: devices)) srv st
         = run (arm_devices devices) srv st)
  /\ (forall devices, fst (run (arm_devices devices) srv st) = Returned tt)
  /\ run (arm_devices ["Pump"; "Laser"; "Unknown"]) srv st
     = (Returned tt, exec (arm_laser PyNone) srv (exec (arm_pump PyNone) srv st)).
Proof.
  split; [exact dict_get_component_name | ].
  split; [exact dict_get_unknown | ].
  split; [apply arm_devices_nil | ].
  split; [intros d devices; apply arm_devices_known | ].
  split; [intros device devices; apply arm_devices_unknown | ].
  split; [intros devices; apply arm_devices_returns | ].
  rewrite (arm_devices_known Pump), (arm_devices_known Laser).
  rewrite arm_devices_unknown by reflexivity.
  apply arm_devices_nil.
Qed.

(** C10. Connected, [arm_devices] on the name of a device whose flag is
    already true does not arm it: it posts the device's DISARM command and
    leaves the flag false. *)
Theorem arm_devices_disarms_an_armed_device (d : Device) (srv : Server) (st : State) :
  api_connected (self st) = true ->
  armed (self st) (flag_of d) = true ->
  let st' := exec (arm_devices [component_name d]) srv st in
  armed (self st') (flag_of d) = false
  /\ icon (toggle (self st') (button_of d)) = "lock"
  /\ posted st' = (posted st ++ [command_post (self st) (DISARM d)])%list.
Proof.
  intros Hc Harmed; cbv zeta.
  unfold exec at 1 2 3.
  fold (run (arm_devices [component_name d]) srv st).
  rewrite arm_devices_known, arm_devices_nil; simpl snd.
  unfold exec. pose proof (arm_handler_connected d PyNone srv st Hc) as E.
  unfold run in E; rewrite E; simpl snd; clear E.
  destruct (after_post_self (error_label d) (toggled d (self st))
              (command_post (self st) (toggle_command d (self st))) srv st)
    as [Hp Hs].
  destruct (toggled_once d _ _ Hs) as (Hf & Hi & _ & _).
  rewrite Hf, Hi, Hp. unfold toggle_command. rewrite Harmed.
  repeat split.
Qed.

Lemma arm_devices_disarms_an_armed_device_witness :
  api_connected (self pump_armed_state) = true
  /\ armed (self pump_armed_state) (flag_of Pump) = true
  /\ armed (self (exec (arm_devices ["Pump"]) (answering 200 "OK") pump_armed_state))
       pump_armed = false
  /\ map command
       (posted (exec (arm_devices ["Pump"]) (answering 200 "OK") pump_armed_state))
     = ["ARM_PUMP"; "DISARM_PUMP"].
Proof.
  split; [reflexivity | split; [reflexivity | ] ].
  destruct (arm_devices_disarms_an_armed_device Pump (answering 200 "OK")
              pump_armed_state eq_refl eq_refl) as (Hf & _ & Hp).
  split; [exact Hf | ].
  simpl component_name in Hp; rewrite Hp; reflexivity.
Defined.

(** ** Arrays *)

Lemma length_set_last (a : list float) (v : float) :
  List.length (Np.set_last a v) = List.length a.
Proof.
  unfold Np.set_last. destruct a as [ | x a]; [reflexivity | ].
  rewrite length_app; simpl List.length at 2.
  generalize x; induction a as [ | y a IH]; intros z; [reflexivity | ].
  change (removelast (z :: y :: a)) with (z :: removelast (y :: a)).
  simpl List.length in *. specialize (IH y). lia.
Qed.

Lemma length_linspace (start stop : float) (num : nat) :
  List.length (Np.linspace start stop num) = num.
Proof.
  unfold Np.linspace, Np.arange.
  destruct (1 <? num)%nat; rewrite ?length_set_last;
    destruct (0 <? num - 1)%nat;
    try destruct (PrimFloat.eqb _ _);
    rewrite !length_map, length_seq; reflexivity.
Qed.

Lemma length_zeros_like (a : list float) :
  List.length (Np.zeros_like a) = List.length a.
Proof. apply length_map. Qed.

Lemma nth_zeros_like (a : list float) (j : nat) :
  nth j (Np.zeros_like a) low = low.
Proof.
  unfold Np.zeros_like.
  destruct (Nat.lt_ge_cases j (List.length a)) as [Hj | Hj].
  - exact (map_nth (fun _ => low) a low j).
  - apply nth_overflow; rewrite length_map; exact Hj.
Qed.

Lemma length_imap_from {A} (k : nat) (f : nat -> A -> A) (a : list A) :
  List.length (Np.imap_from k f a) = List.length a.
Proof.
  revert k; induction a as [ | x a IH]; intros k; simpl; [ | rewrite IH]; reflexivity.
Qed.

Lemma nth_imap_from {A} (k : nat) (f : nat -> A -> A) (a : list A) (j : nat) (d : A) :
  nth j (Np.imap_from k f a) d
  = if (j <? List.length a)%nat then f (k + j)%nat (nth j a d) else d.
Proof.
  revert k j; induction a as [ | x a IH]; intros k j; simpl.
  - destruct j; reflexivity.
  - destruct j as [ | j]; simpl.
    + rewrite Nat.add_0_r; reflexivity.
    + rewrite IH. change (S j <? S (List.length a))%nat with (j <? List.length a)%nat.
      rewrite Nat.add_succ_r; reflexivity.
Qed.

Lemma nth_set_slice {A} (a : list A) (lo hi : nat) (v : A) (j : nat) (d : A) :
  nth j (Np.set_slice a lo hi v) d
  = if (j <? List.length a)%nat && (lo <=? j)%nat && (j <? hi)%nat then v
    else nth j a d.
Proof.
  unfold Np.set_slice; rewrite nth_imap_from; simpl.
  destruct (Nat.ltb_spec j (List.length a)); simpl.
  - destruct ((lo <=? j)%nat && (j <? hi)%nat); reflexivity.
  - symmetry; apply nth_overflow; assumption.
Qed.

Lemma setitem_spec {A} (a : list A) (i : nat) (v : A) :
  (i < List.length a)%nat ->
  exists b,
    Np.setitem a i v = Returned b
    /\ List.length b = List.length a
    /\ forall j d, nth j b d = if (j =? i)%nat then v else nth j a d.
Proof.
  revert i; induction a as [ | x a IH]; intros i Hi; simpl in Hi; [lia | ].
  destruct i as [ | i]; simpl.
  - exists (v :: a); repeat split. intros [ | j] d; reflexivity.
  - destruct (IH i ltac:(lia)) as (b & -> & Hlen & Hnth).
    exists (x :: b); split; [reflexivity | split; [simpl; lia | ] ].
    intros [ | j] d; simpl; [reflexivity | apply Hnth].
Qed.

Lemma enumerate_from_cons {A} (k : nat) (x : A) (a : list A) :
  Np.enumerate_from k (x :: a) = (k, x) :: Np.enumerate_from (S k) a.
Proof. reflexivity. Qed.

(** ** The loop of the general case *)

Lemma square_wave_loop_spec (period : float) (ts : list float) :
  forall (k : nat) (sq : list float),
    List.length sq = (k + List.length ts)%nat ->
    exists sq',
      square_wave_loop (Np.enumerate_from k ts) period sq = Returned sq'
      /\ List.length sq' = List.length sq
      /\ forall j d,
          nth j sq' d
          = if (k <=? j)%nat && (j <? k + List.length ts)%nat
               && in_first_half period (nth (j - k) ts low)
            then high else nth j sq d.
Proof.
  induction ts as [ | t0 ts IH]; intros k sq Hlen.
  - exists sq; repeat split. intros j d.
    destruct (Nat.leb_spec k j); destruct (Nat.ltb_spec j (k + List.length (@nil float)));
      simpl in *; try reflexivity; lia.
  - rewrite enumerate_from_cons; cbn [square_wave_loop].
    fold (in_first_half period t0). simpl List.length in *.
    assert (Hcase : forall sq1,
               List.length sq1 = List.length sq ->
               (forall j d, nth j sq1 d
                            = if (j =? k)%nat && in_first_half period t0 then high
                              else nth j sq d) ->
               exists sq',
                 square_wave_loop (Np.enumerate_from (S k) ts) period sq1 = Returned sq'
                 /\ List.length sq' = List.length sq
                 /\ forall j d,
                     nth j sq' d
                     = if (k <=? j)%nat && (j <? k + S (List.length ts))%nat
                          && in_first_half period (nth (j - k) (t0 :: ts) low)
                       then high else nth j sq d).
    { intros sq1 Hlen1 Hnth1.
      destruct (IH (S k) sq1 ltac:(lia)) as (sq' & Eloop & Hlen' & Hnth').
      exists sq'; split; [exact Eloop | split; [lia | ] ].
      intros j d; rewrite Hnth', Hnth1.
      destruct (Nat.eqb_spec j k) as [-> | Hjk].
      - replace (k - k)%nat with 0%nat by lia. cbn [nth].
        replace (S k <=? k)%nat with false by (symmetry; apply Nat.leb_gt; lia).
        replace (k <=? k)%nat with true by (symmetry; apply Nat.leb_le; lia).
        replace (k <? k + S (List.length ts))%nat with true
          by (symmetry; apply Nat.ltb_lt; lia).
        simpl. reflexivity.
      - simpl andb at 3.
        destruct (Nat.leb_spec (S k) j) as [Hge | Hlt].
        + replace (k <=? j)%nat with true by (symmetry; apply Nat.leb_le; lia).
          replace (j - k)%nat with (S (j - S k)) by lia. cbn [nth].
          replace (j <? S k + List.length ts)%nat
            with (j <? k + S (List.length ts))%nat
            by (f_equal; lia).
          reflexivity.
        + replace (k <=? j)%nat with false by (symmetry; apply Nat.leb_gt; lia).
          reflexivity. }
    destruct (in_first_half period t0) eqn:Ehalf.
    + destruct (setitem_spec sq k high ltac:(lia)) as (sq1 & Eset & Hlen1 & Hnth1).
      unfold high in Eset; rewrite Eset.
      apply Hcase; [exact Hlen1 | ].
      intros j d; rewrite Hnth1, andb_true_r; reflexivity.
    + apply Hcase; [reflexivity | ].
      intros j d; rewrite andb_false_r; reflexivity.
Qed.

Lemma high_is_not_low : high <> low.
Proof.
  intros H.
  assert (E : PrimFloat.eqb high low = PrimFloat.eqb low low) by (rewrite H; reflexivity).
  vm_compute in E; discriminate E.
Qed.

Lemma linspace_0_1_1000 :
  Np.linspace 0 1 1000
  = (map (fun i => (Np.float_of_int (Z.of_nat i) * (1 / 999))%float) (seq 0 999)
       ++ [1%float])%list.
Proof. vm_compute; reflexivity. Qed.

(** C3. With [frequency == 1] the figure has 1000 samples, those at the
    indices 1 to 998 high and those at 0 and 999 low. The general formula
    is not what gives them: run on the same time points with the period
    [1 / 1] it makes sample 0 high and sample 998 low. *)
Theorem plot_square_wave_frequency_1 :
  exists fig,
    plot_square_wave 1 = Returned fig
    /\ List.length (xdata fig) = 1000%nat
    /\ List.length (ydata fig) = 1000%nat
    /\ (forall i, nth i (ydata fig) low
                  = if (1 <=? i)%nat && (i <=? 998)%nat then high else low)
    /\ nth 0 (ydata fig) low = low
    /\ nth 999 (ydata fig) low = low
    /\ exists period general,
        Np.true_divide 1 1 = Returned period
        /\ square_wave_loop (Np.enumerate_from 0 (xdata fig)) period
             (Np.zeros_like (xdata fig)) = Returned general
        /\ nth 0 general low = high
        /\ nth 998 general low = low.
Proof.
  eexists; split.
  - unfold plot_square_wave. change (1 =? 1) with true. cbv iota. reflexivity.
  - cbn [xdata ydata].
    assert (Hnth : forall i,
               nth i (Np.set_slice (Np.zeros_like (Np.linspace 0 1 1000)) 1 999 1%float)
                 low
               = if (1 <=? i)%nat && (i <=? 998)%nat then high else low).
    { intros i. rewrite nth_set_slice, nth_zeros_like, length_zeros_like, length_linspace.
      destruct (Nat.ltb_spec i 1000); destruct (Nat.leb_spec 1 i);
        destruct (Nat.ltb_spec i 999); destruct (Nat.leb_spec i 998);
        simpl; try reflexivity; lia. }
    split; [apply length_linspace | ].
    split; [unfold Np.set_slice; rewrite length_imap_from, length_zeros_like;
            apply length_linspace | ].
    split; [exact Hnth | ].
    split; [apply (Hnth 0%nat) | ].
    split; [apply (Hnth 999%nat) | ].
    eexists; eexists; split; [vm_compute; reflexivity | ].
    split; [vm_compute; reflexivity | ].
    split; vm_compute; reflexivity.
Qed.


(** C4. For a frequency other than 1, with [period = 1 / frequency], the
    figure holds the 1000 evenly spaced time points of
    [np.linspace(0, 1, 1000)] and 1000 samples, the sample at a time point
    [t] high exactly when [t % period < period / 2], low otherwise. For the
    frequency 20 the period is the float [0.05] and its half the float
    [0.025]. *)
Theorem plot_square_wave_general (frequency : Z) (period : float) :
  frequency <> 1 ->
  Np.true_divide 1 frequency = Returned period ->
  exists fig,
    plot_square_wave frequency = Returned fig
    /\ xdata fig
       = (map (fun i => (Np.float_of_int (Z.of_nat i) * (1 / 999))%float) (seq 0 999)
            ++ [1%float])%list
    /\ List.length (xdata fig) = 1000%nat
    /\ List.length (ydata fig) = 1000%nat
    /\ (forall i,
           (i < 1000)%nat ->
           let t := nth i (xdata fig) low in
           (nth i (ydata fig) low = high
            <-> (Np.remainder t period <? period / 2)%float = true)
           /\ (nth i (ydata fig) low = low
               <-> (Np.remainder t period <? period / 2)%float = false))
    /\ (frequency = 20 ->
        period = 0.05%float /\ (period / 2)%float = 0.025%float).
Proof.
  intros Hne1 Hperiod.
  assert (E1 : (frequency =? 1) = false) by (apply Z.eqb_neq; exact Hne1).
  destruct (square_wave_loop_spec period
              (Np.linspace 0 1 1000) 0 (Np.zeros_like (Np.linspace 0 1 1000)))
    as (sq & Eloop & Hlen & Hnth).
  { rewrite length_zeros_like; reflexivity. }
  eexists; split.
  - unfold plot_square_wave. rewrite E1, Hperiod, Eloop. reflexivity.
  - cbn [xdata ydata].
    split; [exact linspace_0_1_1000 | ].
    split; [apply length_linspace | ].
    split; [rewrite Hlen, length_zeros_like; apply length_linspace | ].
    split.
    + intros i Hi; cbv zeta.
      rewrite Hnth, nth_zeros_like, length_linspace, Nat.sub_0_r.
      replace (0 <=? i)%nat with true by reflexivity.
      replace (i <? 0 + 1000)%nat with true by (symmetry; apply Nat.ltb_lt; lia).
      unfold in_first_half; rewrite !andb_true_l.
      destruct (PrimFloat.ltb _ _); split; split; intros H;
        try reflexivity; try discriminate H;
        exfalso; first [exact (high_is_not_low H) | exact (high_is_not_low (eq_sym H))].
    + intros ->. injection Hperiod as <-. split; vm_compute; reflexivity.
Qed.

Lemma plot_square_wave_general_witness :
  20 <> 1
  /\ Np.true_divide 1 20 = Returned 0.05%float
  /\ exists fig,
      plot_square_wave 20 = Returned fig
      /\ nth 24 (ydata fig) low = high
      /\ nth 25 (ydata fig) low = low
      /\ nth 999 (ydata fig) low = low.
Proof.
  assert (H1 : 20 <> 1) by discriminate.
  assert (Hp : Np.true_divide 1 20 = Returned 0.05%float) by (vm_compute; reflexivity).
  split; [exact H1 | split; [exact Hp | ] ].
  destruct (plot_square_wave_general 20 0.05%float H1 Hp)
    as (fig & Efig & Ex & _ & _ & Hsamples & _).
  exists fig; split; [exact Efig | ].
  split; [ | split].
  - apply (proj1 (Hsamples 24%nat ltac:(lia))). rewrite Ex. vm_compute; reflexivity.
  - apply (proj2 (Hsamples 25%nat ltac:(lia))). rewrite Ex. vm_compute; reflexivity.
  - apply (proj2 (Hsamples 999%nat ltac:(lia))). rewrite Ex. vm_compute; reflexivity.
Defined.

(** At frequency 0 there is no figure: the division raises. *)
Lemma plot_square_wave_frequency_0 :
  plot_square_wave 0 = Raised (ZeroDivisionError "division by zero").
Proof. reflexivity. Qed.

(** * Further properties *)

(** ** [set_active_lever] off the two menu items *)

Lemma set_active_lever_on_none (srv : Server) (st : State) :
  api_connected (self st) = true ->
  run (set_active_lever PyNone) srv st
  = (Raised (AttributeError "'NoneType' object has no attribute 'new'"), st).
Proof.
  intros Hc. unfold_handlers. unfold event_new_is, raise. rewrite Hc; reflexivity.
Qed.

Lemma set_active_lever_unassigned (event : Event) (srv : Server) (st : State) :
  api_connected (self st) = true ->
  (exists b, event = Changed b)
  \/ (exists item, event = Clicked item /\ item <> "LH Lever" /\ item <> "RH Lever") ->
  run (set_active_lever event) srv st
  = (Returned tt,
     {| self := logged
                  (Error_entry "Failed to set active lever"
                     "cannot access local variable 'data' where it is not associated with a value")
                  (self st);
        posted := posted st |}).
Proof.
  intros Hc [[b ->] | (item & -> & Hlh & Hrh)];
    unfold_handlers; unfold event_new_is, local, raise; rewrite Hc; cbn [negb].
  - reflexivity.
  - apply String.eqb_neq in Hlh, Hrh. rewrite Hlh, Hrh. reflexivity.
Qed.

(** ** How a call leaves the state *)

Lemma grown_weaken (st st' : State) (a b a' b' : nat) (P Q : string -> Prop) :
  (a <= a')%nat -> (b <= b')%nat -> (forall data, P data -> Q data) ->
  grown st st' a b P -> grown st st' a' b' Q.
Proof.
  intros Ha Hb HPQ (entries & reqs & Hlog & Hposted & Hle & Hlr & He & Hr & Hs & Hf).
  exists entries, reqs. repeat split; try assumption; try lia.
  eapply Forall_impl; [ | exact Hr]. intros req (data & Hd & ->).
  exists data; split; [apply HPQ, Hd | reflexivity].
Qed.

Lemma grown_refl (st : State) (P : string -> Prop) : grown st st 0 0 P.
Proof.
  exists [], []. rewrite !app_nil_r. repeat split; try constructor; reflexivity.
Qed.

Lemma settings_command_post (s s' : HardwareTab) (data : string) :
  settings s' = settings s -> command_post s' data = command_post s data.
Proof.
  unfold settings, command_post. intros [= _ Hcfg _ _ _ _ _]. rewrite Hcfg; reflexivity.
Qed.

Lemma grown_trans (st st1 st2 : State) (a b c d : nat) (P : string -> Prop) :
  grown st st1 a b P -> grown st1 st2 c d P -> grown st st2 (a + c) (b + d) P.
Proof.
  intros (e1 & r1 & Hlog1 & Hp1 & Hle1 & Hlr1 & He1 & Hr1 & Hs1 & Hf1)
         (e2 & r2 & Hlog2 & Hp2 & Hle2 & Hlr2 & He2 & Hr2 & Hs2 & Hf2).
  exists (e1 ++ e2)%list, (r1 ++ r2)%list.
  split; [rewrite Hlog2, Hlog1, app_assoc; reflexivity | ].
  split; [rewrite Hp2, Hp1, app_assoc; reflexivity | ].
  split; [rewrite length_app; lia | ].
  split; [rewrite length_app; lia | ].
  split; [apply Forall_app; split; assumption | ].
  split.
  - apply Forall_app; split; [exact Hr1 | ].
    eapply Forall_impl; [ | exact Hr2]. intros req (data & Hd & ->).
    exists data; split; [exact Hd | apply settings_command_post, Hs1].
  - split; [rewrite Hs2; exact Hs1 | ].
    intros b0; rewrite Hf2; apply Hf1.
Qed.

Lemma send_all_grown (h : Handler) (cmds : list string) (srv : Server) (st : State) :
  grown st (send_all (handler_label h) cmds srv st) 1 (List.length cmds)
    (fun data => In data cmds).
Proof.
  revert st; induction cmds as [ | data rest IH]; intros st.
  - cbn [send_all].
    apply (grown_weaken st st 0 0 1 _ (fun d => In d []) (fun d => In d []));
      [lia | lia | trivial | apply grown_refl].
  - cbn [send_all]; cbv zeta. destruct (failure _ _) as [msg | ].
    + exists [Error_entry (handler_label h) msg], [command_post (self st) data].
      repeat split; simpl; try lia.
      * constructor; [right; exists h, msg; reflexivity | constructor].
      * constructor; [ | constructor]. exists data; split; [left | ]; reflexivity.
    + apply (grown_weaken _ _ (0 + 1) (1 + List.length rest) 1 _
               (fun d => In d (data :: rest)) (fun d => In d (data :: rest)));
        [lia | simpl; lia | trivial | ].
      apply (grown_trans st
               {| self := self st;
                  posted := (posted st ++ [command_post (self st) data])%list |}).
      * exists [], [command_post (self st) data]. rewrite app_nil_r.
        repeat split; simpl; try lia; try constructor; try constructor.
        exists data; split; [left | ]; reflexivity.
      * eapply grown_weaken; [ | | | apply IH]; [lia | lia | ].
        intros d Hd; right; exact Hd.
Qed.

Lemma commands_length (h : Handler) (event : Event) (s : HardwareTab) :
  (List.length (commands h event s) <= max_posts h)%nat.
Proof.
  destruct h as [ | d | | ]; simpl; try lia.
  destruct event as [ | item | b]; simpl; try lia.
  destruct (String.eqb item "LH Lever"); [simpl; lia | ].
  destruct (String.eqb item "RH Lever"); simpl; lia.
Qed.

Lemma prepared_same (h : Handler) (s : HardwareTab) :
  log (prepared h s) = log s
  /\ settings (prepared h s) = settings s
  /\ forall b, face (toggle (prepared h s) b) = face (toggle s b).
Proof.
  destruct h as [ | d | | ]; try (repeat split; reflexivity).
  unfold prepared, toggled. destruct (armed s (flag_of d)); repeat split;
    intros b; simpl; destruct (Button_eqb b (button_of d)); reflexivity.
Qed.

Lemma callback_grown (h : Handler) (event : Event) (srv : Server) (st : State) :
  grown st (exec (invoke h event) srv st) 1 (max_posts h)
    (fun data => In data (commands h event (self st))).
Proof.
  destruct (api_connected (self st)) eqn:Hc.
  - assert (Hreach : reaches_post h event ->
                     grown st (exec (invoke h event) srv st) 1 (max_posts h)
                       (fun data => In data (commands h event (self st)))).
    { intros Hev. unfold exec.
      pose proof (invoke_connected h event srv st Hc Hev) as E.
      unfold run in E; rewrite E; simpl snd; clear E.
      destruct (send_all_grown h (commands h event (self st)) srv
                  {| self := prepared h (self st); posted := posted st |})
        as (entries & reqs & Hlog & Hposted & Hle & Hlr & He & Hr & Hs & Hf).
      destruct (prepared_same h (self st)) as (Plog & Pset & Pface).
      cbn [self posted] in *.
      exists entries, reqs. rewrite Hlog, Hposted, Plog, Hs, Pset.
      repeat split; try assumption.
      - pose proof (commands_length h event (self st)); lia.
      - eapply Forall_impl; [ | exact Hr]. intros req (data & Hd & ->).
        exists data; split; [exact Hd | apply settings_command_post, Pset].
      - intros b; rewrite Hf; apply Pface. }
    destruct h as [ | d | | ]; try (apply Hreach; exact I).
    assert (Herr : (exists b, event = Changed b)
                   \/ (exists item, event = Clicked item
                                    /\ item <> "LH Lever" /\ item <> "RH Lever") ->
                   grown st (exec (invoke Set_active_lever event) srv st) 1 1
                     (fun data => In data (commands Set_active_lever event (self st)))).
    { intros Hev. unfold exec. simpl invoke.
      pose proof (set_active_lever_unassigned event srv st Hc Hev) as E.
      unfold run in E; rewrite E; simpl snd.
      exists [Error_entry (handler_label Set_active_lever)
                "cannot access local variable 'data' where it is not associated with a value"],
             [].
      rewrite app_nil_r. repeat split; simpl; try lia; try constructor.
      - right; exists Set_active_lever; eexists; reflexivity.
      - constructor. }
    destruct event as [ | item | b].
    + unfold exec; simpl invoke.
      pose proof (set_active_lever_on_none srv st Hc) as E.
      unfold run in E; rewrite E; simpl snd.
      apply (grown_weaken st st 0 0 1 1 (fun d => In d []) (fun d => In d []));
        [lia | lia | trivial | apply grown_refl].
    + destruct (String.eqb_spec item "LH Lever") as [-> | Hlh];
        [apply Hreach; left; reflexivity | ].
      destruct (String.eqb_spec item "RH Lever") as [-> | Hrh];
        [apply Hreach; right; reflexivity | ].
      apply Herr; right; exists item; repeat split; assumption.
    + apply Herr; left; exists b; reflexivity.
  - unfold exec. pose proof (invoke_not_connected h event srv st Hc) as E.
    unfold run in E; rewrite E; simpl snd.
    exists [please_connect], []. rewrite app_nil_r.
    repeat split; simpl; try lia; try constructor.
    + left; reflexivity.
    + constructor.
Qed.

Lemma is_component_name (d : Device) : is_component (component_name d) = true.
Proof. unfold is_component; rewrite dict_get_component_name; reflexivity. Qed.

Lemma exec_arm_devices_known (d : Device) (devices : list string)
    (srv : Server) (st : State) :
  exec (arm_devices (component_name d :: devices)) srv st
  = exec (arm_devices devices) srv (exec (arm_handler d PyNone) srv st).
Proof.
  unfold exec at 1 2. fold (run (arm_devices (component_name d :: devices)) srv st).
  rewrite arm_devices_known; reflexivity.
Qed.

Lemma exec_arm_devices_unknown (device : string) (devices : list string)
    (srv : Server) (st : State) :
  dict_get hardware_components device = None ->
  exec (arm_devices (device :: devices)) srv st = exec (arm_devices devices) srv st.
Proof.
  intros E. unfold exec. fold (run (arm_devices (device :: devices)) srv st).
  rewrite (arm_devices_unknown _ _ _ _ E); reflexivity.
Qed.

Lemma arm_devices_grown (devices : list string) (srv : Server) (st : State) :
  grown st (exec (arm_devices devices) srv st)
    (List.length (filter is_component devices))
    (List.length (filter is_component devices))
    (fun data => exists d, In (component_name d) devices
                           /\ (data = ARM d \/ data = DISARM d)).
Proof.
  revert st; induction devices as [ | device devices IH]; intros st.
  - apply grown_refl.
  - destruct (dict_get hardware_components device) as [h | ] eqn:E.
    + apply dict_get_hardware_components in E as (d & -> & _).
      rewrite exec_arm_devices_known. simpl filter. rewrite is_component_name.
      simpl List.length.
      apply (grown_trans st (exec (arm_handler d PyNone) srv st) _
               1 1 (List.length (filter is_component devices))
               (List.length (filter is_component devices))).
      * pose proof (callback_grown (Arm d) PyNone srv st) as G.
        eapply grown_weaken; [ | | | exact G]; [lia | simpl; lia | ].
        intros data [<- | []]. exists d; split; [left; reflexivity | ].
        unfold toggle_command; destruct (armed (self st) (flag_of d)); auto.
      * eapply grown_weaken; [ | | | apply IH]; [lia | lia | ].
        intros data (d' & Hin & Hd'). exists d'; split; [right; exact Hin | exact Hd'].
    + rewrite (exec_arm_devices_unknown _ _ _ _ E).
      assert (Hf : filter is_component (device :: devices)
                   = filter is_component devices).
      { simpl. unfold is_component at 1. rewrite E. reflexivity. }
      rewrite Hf.
      eapply grown_weaken; [ | | | apply IH]; [lia | lia | ].
      intros data (d' & Hin & Hd'). exists d'; split; [right; exact Hin | exact Hd'].
Qed.

Lemma commands_in_vocabulary (h : Handler) (event : Event) (s : HardwareTab)
    (data : string) :
  In data (commands h event s) -> in_vocabulary data.
Proof.
  unfold in_vocabulary. destruct h as [ | d | | ]; simpl.
  - destruct event as [ | item | b]; simpl; try contradiction.
    destruct (String.eqb item "LH Lever"); [intros [<- | []]; auto | ].
    destruct (String.eqb item "RH Lever"); [intros [<- | []]; auto | contradiction].
  - intros [<- | []]. right; right; left. exists d.
    unfold toggle_command; destruct (armed s (flag_of d)); auto.
  - intros [<- | [<- | []]]; right; right; right; left.
    + exists (cue_frequency_intslider s); auto.
    + exists (cue_duration_intslider s); auto.
  - intros [<- | [<- | [<- | []]]].
    + right; right; right; right. exists (stim_mode_widget s); reflexivity.
    + right; right; right; left. exists (stim_duration_slider s); auto.
    + right; right; right; left. exists (stim_frequency_slider s); auto.
Qed.

Lemma call_grown (c : Call) (srv : Server) (st : State) :
  exists n m, grown st (exec (call c) srv st) n m in_vocabulary.
Proof.
  destruct c as [h event | devices]; simpl call.
  - exists 1%nat, (max_posts h).
    eapply grown_weaken; [ | | | apply callback_grown]; [lia | lia | ].
    intros data; apply commands_in_vocabulary.
  - exists (List.length (filter is_component devices)),
           (List.length (filter is_component devices)).
    eapply grown_weaken; [ | | | apply arm_devices_grown]; [lia | lia | ].
    intros data (d & _ & Hd). right; right; left; exists d; exact Hd.
Qed.

Lemma run_calls_grown (cs : list (Call * Server)) (st : State) :
  exists n m, grown st (run_calls cs st) n m in_vocabulary.
Proof.
  revert st; induction cs as [ | [c srv] cs IH]; intros st.
  - exists 0%nat, 0%nat; apply grown_refl.
  - cbn [run_calls].
    destruct (call_grown c srv st) as (n1 & m1 & G1).
    destruct (IH (exec (call c) srv st)) as (n2 & m2 & G2).
    exists (n1 + n2)%nat, (m1 + m2)%nat. exact (grown_trans _ _ _ _ _ _ _ _ G1 G2).
Qed.

Lemma toggled_other (d d' : Device) (s : HardwareTab) :
  d <> d' ->
  armed (toggled d s) (flag_of d') = armed s (flag_of d')
  /\ toggle (toggled d s) (button_of d') = toggle s (button_of d').
Proof.
  intros Hne. unfold toggled.
  destruct (armed s (flag_of d)); destruct d, d';
    try (exfalso; apply Hne; reflexivity); split; reflexivity.
Qed.

Lemma arm_handler_other (d d' : Device) (event : Event) (srv : Server) (st : State) :
  d <> d' ->
  armed (self (exec (arm_handler d event) srv st)) (flag_of d')
  = armed (self st) (flag_of d')
  /\ toggle (self (exec (arm_handler d event) srv st)) (button_of d')
     = toggle (self st) (button_of d').
Proof.
  intros Hne. destruct (api_connected (self st)) eqn:Hc.
  - unfold exec. pose proof (arm_handler_connected d event srv st Hc) as E.
    unfold run in E; rewrite E; simpl snd; clear E.
    destruct (toggled_other d d' (self st) Hne) as [Ha Ht].
    destruct (after_post_self (error_label d) (toggled d (self st))
                (command_post (self st) (toggle_command d (self st))) srv st)
      as [_ [-> | [e ->]]]; split; assumption.
  - unfold exec. pose proof (invoke_not_connected (Arm d) event srv st Hc) as E.
    unfold run in E; simpl invoke in E; rewrite E; split; reflexivity.
Qed.

Lemma arm_handler_same (d : Device) (event : Event) (srv : Server) (st : State) :
  api_connected (self st) = true ->
  armed (self (exec (arm_handler d event) srv st)) (flag_of d)
  = negb (armed (self st) (flag_of d))
  /\ api_connected (self (exec (arm_handler d event) srv st)) = true
  /\ api_config (self (exec (arm_handler d event) srv st)) = api_config (self st)
  /\ posted (exec (arm_handler d event) srv st)
     = (posted st ++ [command_post (self st) (toggle_command d (self st))])%list.
Proof.
  intros Hc. unfold exec. pose proof (arm_handler_connected d event srv st Hc) as E.
  unfold run in E; rewrite E; simpl snd; clear E.
  destruct (after_post_self (error_label d) (toggled d (self st))
              (command_post (self st) (toggle_command d (self st))) srv st)
    as [Hp Hs].
  destruct (toggled_once d _ _ Hs) as (Hf & _ & Hc' & Hcfg).
  rewrite Hf, Hc', Hcfg, Hp, Hc. repeat split.
Qed.

Lemma component_name_injective (d d' : Device) :
  component_name d = component_name d' -> d = d'.
Proof. destruct d, d'; intros H; try reflexivity; discriminate H. Qed.

(** * Further theorems *)

(** X1. Connected, choosing one of the two levers posts exactly one
    request, the lever's ACTIVE_LEVER command, and touches no flag and no
    button; a failing POST adds one error entry under the handler's label,
    any other leaves the tab as it was. *)
Theorem set_active_lever_posts_the_choice (item data : string) (srv : Server)
    (st : State) :
  api_connected (self st) = true ->
  (item = "LH Lever" /\ data = "ACTIVE_LEVER_LH")
  \/ (item = "RH Lever" /\ data = "ACTIVE_LEVER_RH") ->
  let st' := exec (set_active_lever (Clicked item)) srv st in
  posted st' = (posted st ++ [command_post (self st) data])%list
  /\ armed (self st') = armed (self st)
  /\ toggle (self st') = toggle (self st)
  /\ (failed (srv (posted st) (command_post (self st) data)) ->
      exists text,
        log (self st')
        = (log (self st) ++ [Error_entry "Failed to set active lever" text])%list)
  /\ (~ failed (srv (posted st) (command_post (self st) data)) ->
      self st' = self st).
Proof.
  intros Hc Hitem; cbv zeta. unfold exec.
  pose proof (set_active_lever_connected item data srv st Hc Hitem) as E.
  unfold run in E; rewrite E; simpl snd; clear E.
  unfold after_post; cbn [self posted].
  split; [reflexivity | ].
  split; [destruct (failure _ _); reflexivity | ].
  split; [destruct (failure _ _); reflexivity | ].
  split.
  - intros Hfail.
    destruct (failure_of_failed (url (command_post (self st) data)) _ Hfail)
      as (text & -> & _).
    exists text; reflexivity.
  - intros Hok. rewrite (failure_not_failed _ _ Hok); reflexivity.
Qed.

Lemma set_active_lever_posts_the_choice_witness :
  api_connected (self (fresh true)) = true
  /\ map command
       (posted (exec (set_active_lever (Clicked "RH Lever")) (answering 200 "OK")
                  (fresh true)))
     = ["ACTIVE_LEVER_RH"].
Proof.
  split; [reflexivity | ].
  rewrite (proj1 (set_active_lever_posts_the_choice "RH Lever" "ACTIVE_LEVER_RH"
                    (answering 200 "OK") (fresh true) eq_refl
                    (or_intror (conj eq_refl eq_refl)))).
  reflexivity.
Defined.

(** X2. Connected, on an event that names neither lever (another item, or
    a toggle's change) [set_active_lever] posts nothing: the unassigned
    [data] raises inside the [try], so the call returns normally with one
    error entry under its label and nothing else changed. *)
Theorem set_active_lever_without_choice (event : Event) (srv : Server) (st : State) :
  api_connected (self st) = true ->
  (exists b, event = Changed b)
  \/ (exists item, event = Clicked item /\ item <> "LH Lever" /\ item <> "RH Lever") ->
  exists text,
    run (set_active_lever event) srv st
    = (Returned tt,
       {| self := logged (Error_entry "Failed to set active lever" text) (self st);
          posted := posted st |}).
Proof.
  intros Hc Hev. eexists. apply set_active_lever_unassigned; assumption.
Qed.

Lemma set_active_lever_without_choice_witness :
  api_connected (self (fresh true)) = true
  /\ ((exists b, Clicked "Both" = Changed b)
      \/ (exists item, Clicked "Both" = Clicked item
                       /\ item <> "LH Lever" /\ item <> "RH Lever"))
  /\ exists text,
      run (set_active_lever (Clicked "Both")) unreachable_server (fresh true)
      = (Returned tt,
         {| self := logged (Error_entry "Failed to set active lever" text)
                      (self (fresh true));
            posted := [] |}).
Proof.
  assert (H : (exists b, Clicked "Both" = Changed b)
              \/ (exists item, Clicked "Both" = Clicked item
                               /\ item <> "LH Lever" /\ item <> "RH Lever")).
  { right; exists "Both"; repeat split; discriminate. }
  split; [reflexivity | split; [exact H | ] ].
  exact (set_active_lever_without_choice (Clicked "Both") unreachable_server
           (fresh true) eq_refl H).
Defined.

(** X3. The only call that lets an exception out is [set_active_lever] with
    [None] while connected: the [AttributeError] of [event.new] leaves the
    handler with the state untouched. Every other call, against any
    server, returns normally. *)
Theorem only_set_active_lever_on_none_raises (c : Call) (srv : Server) (st : State) :
  (c = Callback Set_active_lever PyNone /\ api_connected (self st) = true ->
   run (call c) srv st
   = (Raised (AttributeError "'NoneType' object has no attribute 'new'"), st))
  /\ (~ (c = Callback Set_active_lever PyNone /\ api_connected (self st) = true) ->
      fst (run (call c) srv st) = Returned tt).
Proof.
  split.
  - intros [-> Hc]. apply set_active_lever_on_none, Hc.
  - intros Hnot. destruct c as [h event | devices]; simpl call.
    + destruct (api_connected (self st)) eqn:Hc.
      * assert (Hreach : reaches_post h event ->
                         fst (run (invoke h event) srv st) = Returned tt).
        { intros Hev. rewrite (invoke_connected h event srv st Hc Hev); reflexivity. }
        destruct h as [ | d | | ]; try (apply Hreach; exact I).
        destruct event as [ | item | b].
        -- exfalso; apply Hnot; split; reflexivity.
        -- destruct (String.eqb_spec item "LH Lever") as [-> | Hlh];
             [apply Hreach; left; reflexivity | ].
           destruct (String.eqb_spec item "RH Lever") as [-> | Hrh];
             [apply Hreach; right; reflexivity | ].
           simpl invoke. rewrite set_active_lever_unassigned; [reflexivity | exact Hc | ].
           right; exists item; repeat split; assumption.
        -- simpl invoke. rewrite set_active_lever_unassigned; [reflexivity | exact Hc | ].
           left; exists b; reflexivity.
      * rewrite (invoke_not_connected h event srv st Hc); reflexivity.
    + apply arm_devices_returns.
Qed.

(** X4. An arm/disarm handler touches its own device only: whatever the
    connection and the server, the flag and the button of every other
    device are after the call what they were before. *)
Theorem arm_handler_leaves_other_devices (d d' : Device) (event : Event)
    (srv : Server) (st : State) :
  d <> d' ->
  armed (self (exec (arm_handler d event) srv st)) (flag_of d')
  = armed (self st) (flag_of d')
  /\ toggle (self (exec (arm_handler d event) srv st)) (button_of d')
     = toggle (self st) (button_of d').
Proof. apply arm_handler_other. Qed.

Lemma arm_handler_leaves_other_devices_witness :
  Pump <> Laser
  /\ armed (self (exec (arm_handler Pump PyNone) (answering 200 "OK") (fresh true)))
       (flag_of Laser) = false
  /\ armed (self (exec (arm_handler Pump PyNone) (answering 200 "OK") (fresh true)))
       (flag_of Pump) = true.
Proof.
  assert (H : Pump <> Laser) by discriminate.
  split; [exact H | split; [ | reflexivity] ].
  rewrite (proj1 (arm_handler_leaves_other_devices Pump Laser PyNone
                    (answering 200 "OK") (fresh true) H)).
  reflexivity.
Defined.

(** X5. Over any sequence of calls, against any servers, the tab only
    reads its connection flag, its endpoint and the values of its input
    widgets, and only ever sets the icon of a button: they and the buttons'
    names, values and types stay as they were. The log and the list of
    POSTs only grow at the end, the log by requests to connect and by
    errors under a handler's label. *)
Theorem calls_only_append (cs : list (Call * Server)) (st : State) :
  settings (self (run_calls cs st)) = settings (self st)
  /\ (forall b, face (toggle (self (run_calls cs st)) b) = face (toggle (self st) b))
  /\ exists entries reqs,
      log (self (run_calls cs st)) = (log (self st) ++ entries)%list
      /\ posted (run_calls cs st) = (posted st ++ reqs)%list
      /\ Forall handler_entry entries.
Proof.
  destruct (run_calls_grown cs st)
    as (n & m & entries & reqs & Hlog & Hposted & _ & _ & He & _ & Hs & Hf).
  split; [exact Hs | split; [exact Hf | ] ].
  exists entries, reqs; repeat split; assumption.
Qed.

(** X6. One call of a handler adds at most one entry to the log and at most
    one POST for [set_active_lever] and the arm/disarm handlers, two for
    [send_cue_configuration], three for [send_laser_configuration]; each
    has the timeout 5, goes to the serial-command URL of the configured
    host and port, and carries one of the handler's commands. *)
Theorem handler_posts_are_bounded (h : Handler) (event : Event) (srv : Server)
    (st : State) :
  exists entries reqs,
    log (self (exec (invoke h event) srv st)) = (log (self st) ++ entries)%list
    /\ posted (exec (invoke h event) srv st) = (posted st ++ reqs)%list
    /\ (List.length entries <= 1)%nat
    /\ (List.length reqs <= max_posts h)%nat
    /\ Forall (fun req =>
                 timeout req = 5
                 /\ url req = serial_command_url (api_config (self st))
                 /\ In (command req) (commands h event (self st))) reqs.
Proof.
  destruct (callback_grown h event srv st)
    as (entries & reqs & Hlog & Hposted & Hle & Hlr & _ & Hr & _ & _).
  exists entries, reqs. repeat split; try assumption.
  eapply Forall_impl; [ | exact Hr]. intros req (data & Hd & ->).
  repeat split; exact Hd.
Qed.



(** X8. [arm_devices] on a list in two parts is [arm_devices] on the first
    part followed by [arm_devices] on the second in the state the first
    leaves. *)
Theorem arm_devices_app (first second : list string) (srv : Server) (st : State) :
  run (arm_devices (first ++ second)) srv st
  = run (arm_devices second) srv (exec (arm_devices first) srv st).
Proof.
  revert st; induction first as [ | device first IH]; intros st.
  - reflexivity.
  - change ((device :: first) ++ second)%list with (device :: (first ++ second))%list.
    destruct (dict_get hardware_components device) as [h | ] eqn:E.
    + apply dict_get_hardware_components in E as (d & -> & _).
      rewrite arm_devices_known, exec_arm_devices_known. apply IH.
    + rewrite (arm_devices_unknown _ _ _ _ E), (exec_arm_devices_unknown _ _ _ _ E).
      apply IH.
Qed.

(** X9. Connected, [arm_devices] flips a device once for every time its
    name is listed: its flag ends as it began when the name occurs an even
    number of times (never, or say twice), and inverted when it occurs an
    odd number of times. *)
Theorem arm_devices_flips_by_parity (d : Device) (devices : list string)
    (srv : Server) (st : State) :
  api_connected (self st) = true ->
  armed (self (exec (arm_devices devices) srv st)) (flag_of d)
  = xorb (armed (self st) (flag_of d))
      (Nat.odd (count_occ string_dec devices (component_name d))).
Proof.
  revert st; induction devices as [ | device devices IH]; intros st Hc.
  - simpl. rewrite xorb_false_r; reflexivity.
  - destruct (dict_get hardware_components device) as [h | ] eqn:E.
    + apply dict_get_hardware_components in E as (d0 & -> & _).
      rewrite exec_arm_devices_known.
      destruct (arm_handler_same d0 PyNone srv st Hc) as (Hflip & Hc1 & _ & _).
      rewrite (IH _ Hc1).
      destruct (string_dec (component_name d0) (component_name d)) as [Heq | Hne].
      * apply component_name_injective in Heq; subst d0.
        rewrite (count_occ_cons_eq string_dec devices eq_refl).
        rewrite Hflip, Nat.odd_succ, <- Nat.negb_odd.
        destruct (armed (self st) (flag_of d));
          destruct (Nat.odd (count_occ string_dec devices (component_name d)));
          reflexivity.
      * rewrite (count_occ_cons_neq string_dec devices Hne).
        assert (Hd : d0 <> d) by (intros ->; apply Hne; reflexivity).
        rewrite (proj1 (arm_handler_other d0 d PyNone srv st Hd)). reflexivity.
    + rewrite (exec_arm_devices_unknown _ _ _ _ E).
      assert (Hne : device <> component_name d).
      { intros ->. rewrite dict_get_component_name in E; discriminate E. }
      rewrite (count_occ_cons_neq string_dec devices Hne). apply IH, Hc.
Qed.

Lemma arm_devices_flips_by_parity_witness :
  api_connected (self (fresh true)) = true
  /\ armed (self (exec (arm_devices ["Pump"; "Laser"; "Pump"]) (answering 200 "OK")
                    (fresh true))) (flag_of Pump) = false
  /\ armed (self (exec (arm_devices ["Pump"; "Laser"; "Pump"]) (answering 200 "OK")
                    (fresh true))) (flag_of Laser) = true.
Proof.
  split; [reflexivity | split].
  - rewrite (arm_devices_flips_by_parity Pump ["Pump"; "Laser"; "Pump"]
               (answering 200 "OK") (fresh true) eq_refl).
    reflexivity.
  - reflexivity.
Defined.

(** X10. Connected, [arm_devices] on the names of distinct devices that are
    all disarmed posts their ARM commands, one each and in the order of the
    list, and leaves exactly them armed: every other device keeps its
    flag. *)
Theorem arm_devices_arms_distinct_disarmed_devices (ds : list Device)
    (srv : Server) (st : State) :
  api_connected (self st) = true ->
  NoDup ds ->
  (forall d, In d ds -> armed (self st) (flag_of d) = false) ->
  let st' := exec (arm_devices (map component_name ds)) srv st in
  posted st' = (posted st ++ map (fun d => command_post (self st) (ARM d)) ds)%list
  /\ (forall d, In d ds -> armed (self st') (flag_of d) = true)
  /\ (forall d, ~ In d ds -> armed (self st') (flag_of d) = armed (self st) (flag_of d)).
Proof.
  cbv zeta. revert st; induction ds as [ | d0 ds IH]; intros st Hc Hnodup Hoff.
  - simpl. rewrite app_nil_r. repeat split. intros d [].
  - inversion Hnodup as [ | ? ? Hnotin Hnodup']; subst.
    cbn [map]. rewrite exec_arm_devices_known.
    destruct (arm_handler_same d0 PyNone srv st Hc) as (Hflip & Hc1 & Hcfg & Hposted).
    set (st1 := exec (arm_handler d0 PyNone) srv st) in *.
    assert (Hother : forall d, d0 <> d ->
                               armed (self st1) (flag_of d) = armed (self st) (flag_of d)).
    { intros d Hd. exact (proj1 (arm_handler_other d0 d PyNone srv st Hd)). }
    assert (Hoff1 : forall d, In d ds -> armed (self st1) (flag_of d) = false).
    { intros d Hin. rewrite Hother.
      - apply Hoff; right; exact Hin.
      - intros ->; exact (Hnotin Hin). }
    destruct (IH st1 Hc1 Hnodup' Hoff1) as (Hp & Hon & Hkeep).
    rewrite (Hoff d0 (or_introl eq_refl)) in Hflip. simpl negb in Hflip.
    split; [ | split].
    + rewrite Hp, Hposted, <- app_assoc. f_equal. simpl. f_equal.
      * unfold toggle_command. rewrite (Hoff d0 (or_introl eq_refl)). reflexivity.
      * apply map_ext. intros d. unfold command_post. rewrite Hcfg. reflexivity.
    + intros d [<- | Hin].
      * rewrite (Hkeep d0 Hnotin). exact Hflip.
      * apply Hon, Hin.
    + intros d Hd. rewrite Hkeep.
      * apply Hother. intros ->. apply Hd; left; reflexivity.
      * intros Hin; apply Hd; right; exact Hin.
Qed.

Lemma arm_devices_arms_distinct_disarmed_devices_witness :
  api_connected (self (fresh true)) = true
  /\ NoDup [Pump; Laser]
  /\ (forall d, In d [Pump; Laser] -> armed (self (fresh true)) (flag_of d) = false)
  /\ map command
       (posted (exec (arm_devices (map component_name [Pump; Laser]))
                  unreachable_server (fresh true)))
     = ["ARM_PUMP"; "ARM_LASER"].
Proof.
  assert (Hnodup : NoDup [Pump; Laser]).
  { constructor; [intros [H | []]; discriminate H | ].
    constructor; [intros [] | constructor]. }
  assert (Hoff : forall d, In d [Pump; Laser] ->
                           armed (self (fresh true)) (flag_of d) = false)
    by (intros d _; reflexivity).
  split; [reflexivity | split; [exact Hnodup | split; [exact Hoff | ] ] ].
  rewrite (proj1 (arm_devices_arms_distinct_disarmed_devices [Pump; Laser]
                    unreachable_server (fresh true) eq_refl Hnodup Hoff)).
  reflexivity.
Defined.

(** X11. Connected, [arm_devices] issues exactly one POST for every listed
    name that is a key of the table, repetitions counted, and none for any
    other name; its log grows by at most as many entries. *)
Theorem arm_devices_posts_once_per_known_name (devices : list string)
    (srv : Server) (st : State) :
  api_connected (self st) = true ->
  List.length (posted (exec (arm_devices devices) srv st))
  = (List.length (posted st) + List.length (filter is_component devices))%nat
  /\ (List.length (log (self (exec (arm_devices devices) srv st)))
      <= List.length (log (self st)) + List.length (filter is_component devices))%nat.
Proof.
  intros Hc; split.
  - revert st Hc; induction devices as [ | device devices IH]; intros st Hc.
    + change (exec (arm_devices []) srv st) with st. simpl; lia.
    + destruct (dict_get hardware_components device) as [h | ] eqn:E.
      * apply dict_get_hardware_components in E as (d & -> & _).
        rewrite exec_arm_devices_known.
        destruct (arm_handler_same d PyNone srv st Hc) as (_ & Hc1 & _ & Hposted).
        rewrite (IH _ Hc1), Hposted, length_app. simpl filter.
        rewrite is_component_name. simpl; lia.
      * rewrite (exec_arm_devices_unknown _ _ _ _ E), (IH _ Hc).
        simpl filter. unfold is_component at 2. rewrite E. reflexivity.
  - destruct (arm_devices_grown devices srv st)
      as (entries & reqs & Hlog & _ & Hle & _).
    rewrite Hlog, length_app; lia.
Qed.

Lemma arm_devices_posts_once_per_known_name_witness :
  api_connected (self (fresh true)) = true
  /\ List.length
       (posted (exec (arm_devices ["Pump"; "Unknown"; "Pump"; "Cue"])
                  failing_after_first (fresh true)))
     = 3%nat.
Proof.
  split; [reflexivity | ].
  rewrite (proj1 (arm_devices_posts_once_per_known_name
                    ["Pump"; "Unknown"; "Pump"; "Cue"] failing_after_first
                    (fresh true) eq_refl)).
  reflexivity.
Defined.

(** X12. While the tab is not connected no sequence of calls sends anything
    or changes a flag or a button: the POSTs, the flags and the buttons are
    as before, and the log has grown by requests to connect only. *)
Theorem disconnected_calls_send_nothing (cs : list (Call * Server)) (st : State) :
  api_connected (self st) = false ->
  posted (run_calls cs st) = posted st
  /\ armed (self (run_calls cs st)) = armed (self st)
  /\ toggle (self (run_calls cs st)) = toggle (self st)
  /\ exists n,
      log (self (run_calls cs st)) = (log (self st) ++ repeat please_connect n)%list.
Proof.
  revert st; induction cs as [ | [c srv] cs IH]; intros st Hc.
  - simpl. repeat split. exists 0%nat. simpl; rewrite app_nil_r; reflexivity.
  - cbn [run_calls].
    assert (Hstep : exists k,
               exec (call c) srv st
               = {| self := logged_all (repeat please_connect k) (self st);
                    posted := posted st |}).
    { destruct c as [h event | devices]; simpl call; unfold exec.
      - exists 1%nat. pose proof (invoke_not_connected h event srv st Hc) as E.
        unfold run in E; rewrite E; reflexivity.
      - eexists. pose proof (arm_devices_not_connected devices srv st Hc) as E.
        unfold run in E; rewrite E; reflexivity. }
    destruct Hstep as (k & ->).
    destruct (IH {| self := logged_all (repeat please_connect k) (self st);
                    posted := posted st |} Hc)
      as (Hp & Ha & Ht & n & Hlog).
    rewrite Hp, Ha, Ht, Hlog. repeat split.
    exists (k + n)%nat. simpl. rewrite repeat_app, app_assoc. reflexivity.
Qed.

Lemma disconnected_calls_send_nothing_witness :
  api_connected (self (fresh false)) = false
  /\ posted (run_calls [ (Callback (Arm Pump) (Changed true), answering 200 "OK");
                          (Arm_devices ["Laser"; "Cue"], answering 200 "OK");
                          (Callback Send_laser_configuration PyNone, answering 200 "OK") ]
               (fresh false))
     = [].
Proof.
  split; [reflexivity | ].
  exact (proj1 (disconnected_calls_send_nothing _ (fresh false) eq_refl)).
Defined.

(** ** The wave, for every frequency *)



(** ** Commands and the values they carry *)

Lemma str_int_injective (n m : Z) : str_int n = str_int m -> n = m.
Proof.
  unfold str_int. intros H. apply DecimalZ.to_int_inj.
  assert (Hnonnil : forall z, Z.to_int z <> Decimal.Pos Decimal.Nil
                              /\ Z.to_int z <> Decimal.Neg Decimal.Nil).
  { intros [ | p | p]; simpl; split; try discriminate;
      intros [= Hp]; exact (Unsigned.to_uint_nonnil p Hp). }
  apply (f_equal NilZero.int_of_string) in H.
  rewrite !NilZero.isi in H by apply Hnonnil.
  injection H as H; exact H.
Qed.

(** X14. The configuration commands carry the values they were built from:
    two cue configurations give the same pair of commands only if they
    agree on frequency and duration, and two laser configurations the same
    three commands only if they agree on duration, on frequency and on the
    mode up to case. *)
Theorem configuration_commands_determine_values (s s' : HardwareTab) :
  (cue_commands s = cue_commands s' ->
   cue_frequency_intslider s = cue_frequency_intslider s'
   /\ cue_duration_intslider s = cue_duration_intslider s')
  /\ (laser_commands s = laser_commands s' ->
      upper (stim_mode_widget s) = upper (stim_mode_widget s')
      /\ stim_duration_slider s = stim_duration_slider s'
      /\ stim_frequency_slider s = stim_frequency_slider s').
Proof.
  unfold cue_commands, laser_commands. split.
  - intros [= Hf Hd]. split; apply str_int_injective; assumption.
  - intros [= Hm Hd Hf]. split; [exact Hm | split; apply str_int_injective; assumption].
Qed.

(** ** Flags and the commands sent *)

Lemma last_order_app (d : Device) (cmds more : list string) (current : bool) :
  last_order d (cmds ++ more) current = last_order d more (last_order d cmds current).
Proof.
  revert current; induction cmds as [ | cmd cmds IH]; intros current; simpl.
  - reflexivity.
  - apply IH.
Qed.

Lemma last_order_toggle_command (d d0 : Device) (s : HardwareTab) (current : bool) :
  last_order d [toggle_command d0 s] current
  = if Flag_eqb (flag_of d) (flag_of d0) then negb (armed s (flag_of d0)) else current.
Proof.
  unfold toggle_command. destruct (armed s (flag_of d0)); destruct d, d0; reflexivity.
Qed.

Lemma last_order_other_commands (d : Device) (h : Handler) (event : Event)
    (s : HardwareTab) (cmds : list string) (current : bool) :
  (forall d', h <> Arm d') ->
  Forall (fun cmd => In cmd (commands h event s)) cmds ->
  last_order d cmds current = current.
Proof.
  intros Hh Hall; revert current.
  induction Hall as [ | cmd cmds Hin _ IH]; intros current; [reflexivity | ].
  cbn [last_order]. rewrite IH.
  assert (Hno : String.eqb cmd (ARM d) = false /\ String.eqb cmd (DISARM d) = false).
  { destruct h as [ | d' | | ]; simpl in Hin.
    - destruct event as [ | item | b]; try contradiction.
      destruct (String.eqb item "LH Lever");
        [ | destruct (String.eqb item "RH Lever")];
        try contradiction; destruct Hin as [<- | []]; destruct d; split; reflexivity.
    - exfalso; exact (Hh d' eq_refl).
    - destruct Hin as [<- | [<- | []]]; destruct d; split; reflexivity.
    - destruct Hin as [<- | [<- | [<- | []]]]; destruct d; split; reflexivity. }
  destruct Hno as [-> ->]. reflexivity.
Qed.

Lemma flag_eqb_devices (d d0 : Device) :
  Flag_eqb (flag_of d) (flag_of d0) = true <-> d0 = d.
Proof. destruct d, d0; split; intros H; try reflexivity; discriminate H. Qed.

Lemma invoke_mirrors (h : Handler) (event : Event) (srv : Server) (st : State)
    (d : Device) :
  armed (self st) (flag_of d) = last_order d (map command (posted st)) false ->
  armed (self (exec (invoke h event) srv st)) (flag_of d)
  = last_order d (map command (posted (exec (invoke h event) srv st))) false.
Proof.
  intros Hinv. destruct h as [ | d0 | | ].
  2: { simpl invoke. destruct (api_connected (self st)) eqn:Hc.
       - destruct (arm_handler_same d0 event srv st Hc) as (Hflip & _ & _ & Hposted).
         rewrite Hposted, map_app, last_order_app, <- Hinv. cbn [map command command_post].
         rewrite last_order_toggle_command.
         destruct (Flag_eqb (flag_of d) (flag_of d0)) eqn:Hd.
         + apply flag_eqb_devices in Hd; subst d0. exact Hflip.
         + apply (arm_handler_other d0 d event srv st).
           intros ->. rewrite (proj2 (flag_eqb_devices d d) eq_refl) in Hd. discriminate Hd.
       - unfold exec. pose proof (invoke_not_connected (Arm d0) event srv st Hc) as E.
         unfold run in E; simpl invoke in E; rewrite E; exact Hinv. }
  all: match goal with
       | |- context [invoke ?h ?e] =>
           assert (Hh : forall d', h <> Arm d') by discriminate;
           destruct (other_handlers_frame h e srv st Hh) as [Ha _];
           destruct (callback_grown h e srv st)
             as (entries & reqs & _ & Hposted & _ & _ & _ & Hr & _ & _);
           rewrite Ha, Hposted, map_app, last_order_app, <- Hinv;
           symmetry; apply (last_order_other_commands d h e (self st)); [exact Hh | ];
           apply Forall_map; eapply Forall_impl; [ | exact Hr];
           intros req (data & Hd & ->); exact Hd
       end.
Qed.

Lemma arm_devices_mirrors (devices : list string) (srv : Server) (st : State)
    (d : Device) :
  armed (self st) (flag_of d) = last_order d (map command (posted st)) false ->
  armed (self (exec (arm_devices devices) srv st)) (flag_of d)
  = last_order d (map command (posted (exec (arm_devices devices) srv st))) false.
Proof.
  revert st; induction devices as [ | device devices IH]; intros st Hinv.
  - exact Hinv.
  - destruct (dict_get hardware_components device) as [h | ] eqn:E.
    + apply dict_get_hardware_components in E as (d0 & -> & _).
      rewrite exec_arm_devices_known. apply IH.
      apply (invoke_mirrors (Arm d0) PyNone srv st d Hinv).
    + rewrite (exec_arm_devices_unknown _ _ _ _ E). apply IH, Hinv.
Qed.

(** X15. In every state the tab can reach, a device's flag says what the
    last command sent for that device said: true when the last of its
    commands among the POSTs issued is its ARM command, false when it is
    its DISARM command or none was sent. This holds whether or not the
    POSTs succeeded. *)
Theorem flag_mirrors_last_command (st : State) (d : Device) :
  reachable st ->
  armed (self st) (flag_of d) = last_order d (map command (posted st)) false.
Proof.
  induction 1 as [connected config entries | st c srv _ IH | st self' _ IH Ha _].
  - reflexivity.
  - destruct c as [h event | devices]; simpl call.
    + apply invoke_mirrors, IH.
    + apply arm_devices_mirrors, IH.
  - simpl. rewrite Ha. exact IH.
Qed.

Lemma flag_mirrors_last_command_witness :
  reachable (exec (arm_devices ["Pump"; "Laser"; "Pump"]) unreachable_server
               (fresh true))
  /\ last_order Laser
       (map command
          (posted (exec (arm_devices ["Pump"; "Laser"; "Pump"]) unreachable_server
                     (fresh true)))) false
     = true.
Proof.
  assert (Hr : reachable (exec (arm_devices ["Pump"; "Laser"; "Pump"])
                            unreachable_server (fresh true))).
  { exact (reach_call (fresh true) (Arm_devices ["Pump"; "Laser"; "Pump"])
             unreachable_server (reach_init true localhost [])). }
  split; [exact Hr | ].
  rewrite <- (flag_mirrors_last_command _ Laser Hr). reflexivity.
Defined.
